(** * Flight dynamics model: a shallow embedding of [flightDynamics.ts]

    The TypeScript source computes on IEEE doubles.  The embedding below
    idealises every finite [number] as a real ([R]); the only place where the
    source itself distinguishes non-finite values is the guard of
    [FlightDynamicsModel.update] on [dtSeconds], so that argument is a
    [JsNumber], which keeps [NaN] and the two infinities apart from the finite
    values.  [Math.hypot] is the square root of the sum of squares, [Math.sin],
    [Math.cos], [Math.asin] are the real functions, and [Math.atan2] is
    assembled from [atan] quadrant by quadrant. *)

From Stdlib Require Import Reals Lra Lia List Bool Arith String RNsatz.
Import ListNotations.

Open Scope R_scope.

(** ** Numbers *)

Inductive JsNumber : Type :=
| Finite (r : R)
| PosInfinity
| NegInfinity
| NaN.

(** [Number.isFinite] *)
Definition isFinite (n : JsNumber) : bool :=
  match n with
  | Finite _ => true
  | _ => false
  end.

(** [n <= 0], false on [NaN] as every comparison with it is. *)
Definition leZero (n : JsNumber) : bool :=
  match n with
  | Finite r => if Rle_dec r 0 then true else false
  | NegInfinity => true
  | PosInfinity => false
  | NaN => false
  end.

(** The real carried by a finite number (only used behind [isFinite]). *)
Definition finiteValue (n : JsNumber) : R :=
  match n with
  | Finite r => r
  | _ => 0
  end.

Definition hypot2 (a b : R) : R := sqrt (a * a + b * b).
Definition hypot3 (a b c : R) : R := sqrt (a * a + b * b + c * c).
Definition hypot4 (a b c d : R) : R := sqrt (a * a + b * b + c * c + d * d).

(** [Math.atan2 (y, x)] *)
Definition atan2 (y x : R) : R :=
  if Rlt_dec 0 x then atan (y / x)
  else if Rlt_dec x 0 then
         (if Rle_dec 0 y then atan (y / x) + PI else atan (y / x) - PI)
       else if Rlt_dec 0 y then PI / 2
            else if Rlt_dec y 0 then - PI / 2
                 else 0.

(** ** Data model *)

Record Vector3 : Type := mkVector3 { vx : R; vy : R; vz : R }.

Record Quaternion : Type := mkQuaternion { qx : R; qy : R; qz : R; qw : R }.

Record AircraftParameters : Type := mkAircraftParameters {
  massKg : R;
  wingAreaM2 : R;
  wingSpanM : R;
  maxThrustN : R;
  parasiteDragCoefficient : R;
  clSlopePerRad : R;
  oswaldEfficiency : R
}.

Record ControlInputs : Type := mkControlInputs {
  elevator : R;
  ailerons : R;
  rudder : R;
  throttle : R
}.

Record AngularRates : Type := mkAngularRates { p : R; q : R; r : R }.

Record AircraftState : Type := mkAircraftState {
  positionEnuMeters : Vector3;
  velocityEnuMetersPerSec : Vector3;
  yawRad : R;
  pitchRad : R;
  rollRad : R;
  orientation : Quaternion;
  angularRatesRadPerSec : AngularRates
}.

Definition GRAVITY_M_S2 : R := 9.80665.
Definition AIR_DENSITY_KG_M3 : R := 1.225.

Record FdmConfig : Type := mkFdmConfig {
  maxRollRateRadPerSec : R;
  maxPitchRateRadPerSec : R;
  maxYawRateRadPerSec : R;
  rollRateGain : R;
  pitchRateGain : R;
  yawRateGain : R;
  stallAlphaRad : R;
  coordinationGain : R;
  lateralDragCoefficient : R
}.

Definition DefaultFdmConfig : FdmConfig := {|
  maxRollRateRadPerSec := PI;
  maxPitchRateRadPerSec := PI / 2;
  maxYawRateRadPerSec := PI / 2;
  rollRateGain := 0.6;
  pitchRateGain := 0.5;
  yawRateGain := 0.4;
  stallAlphaRad := 15 * (PI / 180);
  coordinationGain := 0.7;
  lateralDragCoefficient := 0.6
|}.

(** ** Math utilities *)

Definition clamp (value min max : R) : R := Rmax min (Rmin max value).

Definition add (a b : Vector3) : Vector3 :=
  {| vx := vx a + vx b; vy := vy a + vy b; vz := vz a + vz b |}.

Definition scale (v : Vector3) (s : R) : Vector3 :=
  {| vx := vx v * s; vy := vy v * s; vz := vz v * s |}.

Definition dot (a b : Vector3) : R := vx a * vx b + vy a * vy b + vz a * vz b.

Definition magnitude (v : Vector3) : R := hypot3 (vx v) (vy v) (vz v).

Definition normalize (v : Vector3) : Vector3 :=
  let m := magnitude v in
  if Rgt_dec m 1e-6 then scale v (1 / m) else {| vx := 0; vy := 0; vz := 0 |}.

Definition cross (a b : Vector3) : Vector3 :=
  {| vx := vy a * vz b - vz a * vy b;
     vy := vz a * vx b - vx a * vz b;
     vz := vx a * vy b - vy a * vx b |}.

(** A [number[]] holding a 3x3 matrix row by row; [at_ m i] is [m[i]]. *)
Definition Matrix3 : Type := list R.
Definition at_ (m : Matrix3) (i : nat) : R := nth i m 0.

Definition bodyToEnuMatrix (yaw pitch roll : R) : Matrix3 :=
  let cpsi := cos yaw in let spsi := sin yaw in
  let cth := cos pitch in let sth := sin pitch in
  let cphi := cos roll in let sphi := sin roll in
  let r00 := cpsi * cth in
  let r01 := cpsi * sth * sphi - spsi * cphi in
  let r02 := cpsi * sth * cphi + spsi * sphi in
  let r10 := spsi * cth in
  let r11 := spsi * sth * sphi + cpsi * cphi in
  let r12 := spsi * sth * cphi - cpsi * sphi in
  let r20 := - sth in
  let r21 := cth * sphi in
  let r22 := cth * cphi in
  [r00; r01; r02; r10; r11; r12; r20; r21; r22].

Definition multiplyMatrixVector3 (m : Matrix3) (v : Vector3) : Vector3 :=
  {| vx := at_ m 0 * vx v + at_ m 1 * vy v + at_ m 2 * vz v;
     vy := at_ m 3 * vx v + at_ m 4 * vy v + at_ m 5 * vz v;
     vz := at_ m 6 * vx v + at_ m 7 * vy v + at_ m 8 * vz v |}.

Definition transpose3 (m : Matrix3) : Matrix3 :=
  [at_ m 0; at_ m 3; at_ m 6;
   at_ m 1; at_ m 4; at_ m 7;
   at_ m 2; at_ m 5; at_ m 8].

Definition quaternionMultiply (a b : Quaternion) : Quaternion :=
  {| qx := qw a * qx b + qx a * qw b + qy a * qz b - qz a * qy b;
     qy := qw a * qy b - qx a * qz b + qy a * qw b + qz a * qx b;
     qz := qw a * qz b + qx a * qy b - qy a * qx b + qz a * qw b;
     qw := qw a * qw b - qx a * qx b - qy a * qy b - qz a * qz b |}.

Definition quaternionMagnitude (a : Quaternion) : R :=
  hypot4 (qx a) (qy a) (qz a) (qw a).

Definition quaternionNormalize (a : Quaternion) : Quaternion :=
  let m := hypot4 (qx a) (qy a) (qz a) (qw a) in
  if Req_dec_T m 0 then {| qx := 0; qy := 0; qz := 0; qw := 1 |}
  else
    let s := 1 / m in
    {| qx := qx a * s; qy := qy a * s; qz := qz a * s; qw := qw a * s |}.

Definition integrateOrientation (a : Quaternion) (pRate qRate rRate dt : R) : Quaternion :=
  let omega := {| qx := pRate; qy := qRate; qz := rRate; qw := 0 |} in
  let dq := quaternionMultiply a omega in
  let qn := {| qx := qx a + 0.5 * qx dq * dt;
               qy := qy a + 0.5 * qy dq * dt;
               qz := qz a + 0.5 * qz dq * dt;
               qw := qw a + 0.5 * qw dq * dt |} in
  quaternionNormalize qn.

Definition matrixFromQuaternion (a : Quaternion) : Matrix3 :=
  let x := qx a in let y := qy a in let z := qz a in let w := qw a in
  let xx := x * x in let yy := y * y in let zz := z * z in
  let xy := x * y in let xz := x * z in let yz := y * z in
  let wx := w * x in let wy := w * y in let wz := w * z in
  let r00 := 1 - 2 * (yy + zz) in
  let r01 := 2 * (xy - wz) in
  let r02 := 2 * (xz + wy) in
  let r10 := 2 * (xy + wz) in
  let r11 := 1 - 2 * (xx + zz) in
  let r12 := 2 * (yz - wx) in
  let r20 := 2 * (xz - wy) in
  let r21 := 2 * (yz + wx) in
  let r22 := 1 - 2 * (xx + yy) in
  [r00; r01; r02; r10; r11; r12; r20; r21; r22].

Definition quaternionFromYawPitchRoll (yaw pitch roll : R) : Quaternion :=
  let cy := cos (yaw * 0.5) in let sy := sin (yaw * 0.5) in
  let cp := cos (pitch * 0.5) in let sp := sin (pitch * 0.5) in
  let cr := cos (roll * 0.5) in let sr := sin (roll * 0.5) in
  {| qw := cr * cp * cy + sr * sp * sy;
     qx := sr * cp * cy - cr * sp * sy;
     qy := cr * sp * cy + sr * cp * sy;
     qz := cr * cp * sy - sr * sp * cy |}.

Record YawPitchRoll : Type := mkYawPitchRoll { yaw : R; pitch : R; roll : R }.

Definition yawPitchRollFromQuaternion (a : Quaternion) : YawPitchRoll :=
  let m := matrixFromQuaternion a in
  let r20 := at_ m 6 in
  let r21 := at_ m 7 in
  let r22 := at_ m 8 in
  let r10 := at_ m 3 in
  let r00 := at_ m 0 in
  let pitch := asin (- r20) in
  let roll := atan2 r21 r22 in
  let yawZ := atan2 r10 r00 in
  {| yaw := yawZ; pitch := pitch; roll := roll |}.

(** ** Aerodynamic coefficients and forces *)

Definition calculateLiftCoefficient (alphaRad clSlope stallAlpha : R) : R :=
  let limitedAlpha := clamp alphaRad (- stallAlpha) stallAlpha in
  clSlope * limitedAlpha.

Definition calculateDragCoefficient (cd0 cl aspectRatio oswald : R) : R :=
  let k := 1 / (PI * aspectRatio * oswald) in
  cd0 + k * cl * cl.

Definition calculateLiftNewtons (cl airDensityKgM3 speedMS wingArea : R) : R :=
  0.5 * cl * airDensityKgM3 * speedMS * speedMS * wingArea.

Definition calculateDragNewtons (cd airDensityKgM3 speedMS wingArea : R) : R :=
  0.5 * cd * airDensityKgM3 * speedMS * speedMS * wingArea.

Definition defaultParams : AircraftParameters := {|
  massKg := 1110;
  wingAreaM2 := 16.2;
  wingSpanM := 11.0;
  maxThrustN := 4500;
  parasiteDragCoefficient := 0.03;
  clSlopePerRad := 5.7;
  oswaldEfficiency := 0.8
|}.

Definition defaultState : AircraftState := {|
  positionEnuMeters := {| vx := 0; vy := 0; vz := 0 |};
  velocityEnuMetersPerSec := {| vx := 0; vy := 0; vz := 0 |};
  yawRad := 0;
  pitchRad := 0;
  rollRad := 0;
  orientation := {| qx := 0; qy := 0; qz := 0; qw := 1 |};
  angularRatesRadPerSec := {| p := 0; q := 0; r := 0 |}
|}.

(** [createDefaultAircraft ()] returns the pair [{ params, state }]. *)
Definition createDefaultAircraft : AircraftParameters * AircraftState :=
  (defaultParams, defaultState).

(** ** The model object *)

Record FlightDynamicsModel : Type := mkFlightDynamicsModel {
  params : AircraftParameters;
  config : FdmConfig;
  state : AircraftState
}.

Definition withOrientation (st : AircraftState) (o : Quaternion) : AircraftState :=
  {| positionEnuMeters := positionEnuMeters st;
     velocityEnuMetersPerSec := velocityEnuMetersPerSec st;
     yawRad := yawRad st;
     pitchRad := pitchRad st;
     rollRad := rollRad st;
     orientation := o;
     angularRatesRadPerSec := angularRatesRadPerSec st |}.

(** [new FlightDynamicsModel (params, initialState, config)] *)
Definition newFlightDynamicsModel
    (ps : AircraftParameters) (initialState : AircraftState) (cfg : FdmConfig)
  : FlightDynamicsModel :=
  {| params := ps;
     config := cfg;
     state := withOrientation initialState
                (quaternionFromYawPitchRoll (yawRad initialState)
                   (pitchRad initialState) (rollRad initialState)) |}.

(** *** One pass through the body of the [while] loop of [update]

    The body is cut at its own comment headings: the attitude part (angular
    kinematics, Euler angles), the forces in the body frame as a function of
    the body-frame velocity, and the translational integration. *)

Definition integrateAttitude
    (cfg : FdmConfig) (inputs : ControlInputs) (dt : R) (st : AircraftState)
  : AircraftState :=
  let airspeedMS := magnitude (velocityEnuMetersPerSec st) in
  let speedFactor := clamp (airspeedMS / 50) 0 1 in
  let pCmd := ailerons inputs * maxRollRateRadPerSec cfg * rollRateGain cfg * speedFactor in
  let qCmd := elevator inputs * maxPitchRateRadPerSec cfg * pitchRateGain cfg * speedFactor in
  let rCmd0 := rudder inputs * maxYawRateRadPerSec cfg * yawRateGain cfg * speedFactor in
  let rCmd := rCmd0 + - sin (rollRad st) * maxYawRateRadPerSec cfg
                        * coordinationGain cfg * speedFactor * 0.2 in
  let orientation' := integrateOrientation (orientation st) pCmd qCmd rCmd dt in
  let eul := yawPitchRollFromQuaternion orientation' in
  {| positionEnuMeters := positionEnuMeters st;
     velocityEnuMetersPerSec := velocityEnuMetersPerSec st;
     yawRad := yaw eul;
     pitchRad := clamp (pitch eul) (- PI / 2 + 0.001) (PI / 2 - 0.001);
     rollRad := roll eul;
     orientation := orientation';
     angularRatesRadPerSec := {| p := pCmd; q := qCmd; r := rCmd |} |}.

Definition bodyForce
    (ps : AircraftParameters) (cfg : FdmConfig) (inputs : ControlInputs)
    (vBody : Vector3) : Vector3 :=
  let u := vx vBody in
  let vSide := vy vBody in
  let w := vz vBody in
  let vAeroBody := {| vx := Rmax 0 u; vy := vSide; vz := w |} in
  let speedAero := magnitude vAeroBody in
  let effectiveU := Rmax 1e-3 (vx vAeroBody) in
  let alpha := if Rlt_dec speedAero 0.1 then 0 else atan2 (vz vAeroBody) effectiveU in
  let beta := if Rlt_dec speedAero 0.1 then 0
              else atan2 (vy vAeroBody) (hypot2 (Rmax 1e-6 (vx vAeroBody)) (vz vAeroBody)) in
  let aspectRatio := (wingSpanM ps * wingSpanM ps) / wingAreaM2 ps in
  let cl := calculateLiftCoefficient alpha (clSlopePerRad ps) (stallAlphaRad cfg) in
  let cd := calculateDragCoefficient (parasiteDragCoefficient ps) cl aspectRatio
              (oswaldEfficiency ps) in
  let liftN := calculateLiftNewtons cl AIR_DENSITY_KG_M3 speedAero (wingAreaM2 ps) in
  let dragN := calculateDragNewtons cd AIR_DENSITY_KG_M3 speedAero (wingAreaM2 ps) in
  let thrustN := maxThrustN ps * clamp (throttle inputs) 0 1 in
  let forwardDirBody := {| vx := 1; vy := 0; vz := 0 |} in
  let vHatBody := if Rlt_dec speedAero 1e-3 then {| vx := 1; vy := 0; vz := 0 |}
                  else normalize vAeroBody in
  let spanHatBody := {| vx := 0; vy := 1; vz := 0 |} in
  let liftDirBody := normalize (cross vHatBody spanHatBody) in
  let dragDirBody := if Rlt_dec (magnitude vBody) 1e-3 then {| vx := -1; vy := 0; vz := 0 |}
                     else normalize {| vx := - u; vy := - vSide; vz := - w |} in
  let qDyn := 0.5 * AIR_DENSITY_KG_M3 * speedAero * speedAero in
  let cyBeta := -0.98 in
  let sideForceN := qDyn * wingAreaM2 ps * cyBeta * beta in
  add
    (add (add (scale forwardDirBody thrustN) (scale liftDirBody liftN))
       (scale dragDirBody dragN))
    {| vx := 0; vy := sideForceN; vz := 0 |}.

Definition maxSpeed : R := 250.

Definition integrateTranslation
    (ps : AircraftParameters) (dt : R) (rBodyToEnu : Matrix3) (forceBody : Vector3)
    (st : AircraftState) : AircraftState :=
  let aerodynamicForceEnu := multiplyMatrixVector3 rBodyToEnu forceBody in
  let gravityForceEnu := {| vx := 0; vy := 0; vz := - massKg ps * GRAVITY_M_S2 |} in
  let netForceEnu := add aerodynamicForceEnu gravityForceEnu in
  let accelerationEnu := scale netForceEnu (1 / massKg ps) in
  let velocity1 := add (velocityEnuMetersPerSec st) (scale accelerationEnu dt) in
  let speed := magnitude velocity1 in
  let velocity2 := if Rgt_dec speed maxSpeed then scale (normalize velocity1) maxSpeed
                   else velocity1 in
  {| positionEnuMeters := add (positionEnuMeters st) (scale velocity2 dt);
     velocityEnuMetersPerSec := velocity2;
     yawRad := yawRad st;
     pitchRad := pitchRad st;
     rollRad := rollRad st;
     orientation := orientation st;
     angularRatesRadPerSec := angularRatesRadPerSec st |}.

Definition substep
    (ps : AircraftParameters) (cfg : FdmConfig) (inputs : ControlInputs)
    (dt : R) (st : AircraftState) : AircraftState :=
  let st1 := integrateAttitude cfg inputs dt st in
  let rBodyToEnu := matrixFromQuaternion (orientation st1) in
  let rEnuToBody := transpose3 rBodyToEnu in
  let vBody := multiplyMatrixVector3 rEnuToBody (velocityEnuMetersPerSec st1) in
  integrateTranslation ps dt rBodyToEnu (bodyForce ps cfg inputs vBody) st1.

(** *** The substep loop

    [while (remaining > 1e-6) { dt = min (maxStep, remaining); ...; remaining -= dt }],
    generic in what one pass does with [dt].  The loop has no bound of its own
    in the source; [fuel] bounds the number of passes here and running out of
    it is [None]. *)

Definition maxStep : R := 0.02.

Fixpoint whileRemaining {S : Type} (body : R -> S -> S)
    (fuel : nat) (remaining : R) (s : S) : option S :=
  if Rgt_dec remaining 1e-6 then
    match fuel with
    | O => None
    | Datatypes.S fuel' =>
        let dt := Rmin maxStep remaining in
        whileRemaining body fuel' (remaining - dt) (body dt s)
    end
  else Some s.

(** Thirteen passes exhaust the quarter second that [update] lets through. *)
Definition loopFuel : nat := 13.

(** The sizes of the substeps the loop takes, in order. *)
Definition substepSizes (remaining : R) : option (list R) :=
  whileRemaining (fun dt l => l ++ [dt]) loopFuel remaining [].

Definition withState (m : FlightDynamicsModel) (st : AircraftState) : FlightDynamicsModel :=
  {| params := params m; config := config m; state := st |}.

(** [update (dtSeconds, inputs)]; the state mutated in place is the state of
    the model returned. *)
Definition update (m : FlightDynamicsModel) (dtSeconds : JsNumber) (inputs : ControlInputs)
  : option FlightDynamicsModel :=
  if negb (isFinite dtSeconds) || leZero dtSeconds then Some m
  else
    let remaining := Rmin (finiteValue dtSeconds) 0.25 in
    option_map (withState m)
      (whileRemaining (substep (params m) (config m) inputs) loopFuel remaining (state m)).

(** A run of calls [update (dt_1, c_1); update (dt_2, c_2); ...]. *)
Fixpoint updates (m : FlightDynamicsModel) (calls : list (JsNumber * ControlInputs))
  : option FlightDynamicsModel :=
  match calls with
  | [] => Some m
  | (dt, inputs) :: rest =>
      match update m dt inputs with
      | Some m' => updates m' rest
      | None => None
      end
  end.

(** Simulated seconds covered by a list of substeps. *)
Definition totalSeconds (sizes : list R) : R := fold_right Rplus 0 sizes.

(** The state after the substeps of the given sizes, taken in order. *)
Definition runSubsteps
    (ps : AircraftParameters) (cfg : FdmConfig) (inputs : ControlInputs)
    (sizes : list R) (st : AircraftState) : AircraftState :=
  fold_left (fun s dt => substep ps cfg inputs dt s) sizes st.

(** The control ranges written next to the fields of [ControlInputs]
    ([-1, 1] for the three surfaces, [0, 1] for the throttle), applied to
    every component: what the specification calls the clamped controls. *)
Definition clampedControls (inputs : ControlInputs) : ControlInputs :=
  {| elevator := clamp (elevator inputs) (-1) 1;
     ailerons := clamp (ailerons inputs) (-1) 1;
     rudder := clamp (rudder inputs) (-1) 1;
     throttle := clamp (throttle inputs) 0 1 |}.

(** The velocity that [integrateTranslation] obtains from the net force,
    before the speed limit is applied to it. *)
Definition integratedVelocity
    (ps : AircraftParameters) (dt : R) (rBodyToEnu : Matrix3) (forceBody : Vector3)
    (st : AircraftState) : Vector3 :=
  let aerodynamicForceEnu := multiplyMatrixVector3 rBodyToEnu forceBody in
  let gravityForceEnu := {| vx := 0; vy := 0; vz := - massKg ps * GRAVITY_M_S2 |} in
  let netForceEnu := add aerodynamicForceEnu gravityForceEnu in
  let accelerationEnu := scale netForceEnu (1 / massKg ps) in
  add (velocityEnuMetersPerSec st) (scale accelerationEnu dt).

Definition withVelocity (st : AircraftState) (v : Vector3) : AircraftState :=
  {| positionEnuMeters := positionEnuMeters st;
     velocityEnuMetersPerSec := v;
     yawRad := yawRad st;
     pitchRad := pitchRad st;
     rollRad := rollRad st;
     orientation := orientation st;
     angularRatesRadPerSec := angularRatesRadPerSec st |}.

Definition speedOf (m : FlightDynamicsModel) : R :=
  magnitude (velocityEnuMetersPerSec (state m)).

(** The orientation of an aircraft whose body axes are the ENU axes. *)
Definition identityQuaternion : Quaternion := {| qx := 0; qy := 0; qz := 0; qw := 1 |}.

(** *** The intermediate quantities of [bodyForce], by name

    Each definition is one [const] of the force computation of [update], as a
    function of the body-frame velocity; [bodyForce_by_parts] below checks that
    [bodyForce] is their combination. *)

Definition aeroVelocityBody (vBody : Vector3) : Vector3 :=
  {| vx := Rmax 0 (vx vBody); vy := vy vBody; vz := vz vBody |}.

Definition aeroSpeed (vBody : Vector3) : R := magnitude (aeroVelocityBody vBody).

Definition angleOfAttack (vBody : Vector3) : R :=
  let vAeroBody := aeroVelocityBody vBody in
  if Rlt_dec (aeroSpeed vBody) 0.1 then 0
  else atan2 (vz vAeroBody) (Rmax 1e-3 (vx vAeroBody)).

Definition sideslip (vBody : Vector3) : R :=
  let vAeroBody := aeroVelocityBody vBody in
  if Rlt_dec (aeroSpeed vBody) 0.1 then 0
  else atan2 (vy vAeroBody) (hypot2 (Rmax 1e-6 (vx vAeroBody)) (vz vAeroBody)).

Definition liftCoefficientAt (ps : AircraftParameters) (cfg : FdmConfig) (vBody : Vector3) : R :=
  calculateLiftCoefficient (angleOfAttack vBody) (clSlopePerRad ps) (stallAlphaRad cfg).

Definition dragCoefficientAt (ps : AircraftParameters) (cfg : FdmConfig) (vBody : Vector3) : R :=
  calculateDragCoefficient (parasiteDragCoefficient ps) (liftCoefficientAt ps cfg vBody)
    ((wingSpanM ps * wingSpanM ps) / wingAreaM2 ps) (oswaldEfficiency ps).

Definition liftNewtonsAt (ps : AircraftParameters) (cfg : FdmConfig) (vBody : Vector3) : R :=
  calculateLiftNewtons (liftCoefficientAt ps cfg vBody) AIR_DENSITY_KG_M3
    (aeroSpeed vBody) (wingAreaM2 ps).

Definition dragNewtonsAt (ps : AircraftParameters) (cfg : FdmConfig) (vBody : Vector3) : R :=
  calculateDragNewtons (dragCoefficientAt ps cfg vBody) AIR_DENSITY_KG_M3
    (aeroSpeed vBody) (wingAreaM2 ps).

Definition liftDirectionBody (vBody : Vector3) : Vector3 :=
  let vHatBody := if Rlt_dec (aeroSpeed vBody) 1e-3 then {| vx := 1; vy := 0; vz := 0 |}
                  else normalize (aeroVelocityBody vBody) in
  normalize (cross vHatBody {| vx := 0; vy := 1; vz := 0 |}).

Definition dragDirectionBody (vBody : Vector3) : Vector3 :=
  if Rlt_dec (magnitude vBody) 1e-3 then {| vx := -1; vy := 0; vz := 0 |}
  else normalize {| vx := - vx vBody; vy := - vy vBody; vz := - vz vBody |}.

Definition sideForceNewtonsAt (ps : AircraftParameters) (vBody : Vector3) : R :=
  0.5 * AIR_DENSITY_KG_M3 * aeroSpeed vBody * aeroSpeed vBody
  * wingAreaM2 ps * -0.98 * sideslip vBody.

(** The default aircraft flying east at 55 m/s, the initial speed that
    [main.ts] gives it. *)
Definition cruiseState : AircraftState :=
  withVelocity defaultState {| vx := 55; vy := 0; vz := 0 |}.

(** All four controls at zero. *)
Definition neutralControls : ControlInputs :=
  {| elevator := 0; ailerons := 0; rudder := 0; throttle := 0 |}.

(** ** Ambient wind *)

Module Wind.

(** Modelled from the spec: the ambient wind of the model and its setter
    [setWindEnuMetersPerSec].  [main.ts] and the end-to-end tests call the
    setter, but the class [FlightDynamicsModel] at hand declares neither the
    method nor a wind field.  A model with wind is the model above together
    with the wind vector (ENU, m/s). *)
Record WindModel : Type := mkWindModel {
  fdm : FlightDynamicsModel;
  windEnuMetersPerSec : Vector3
}.

(** Modelled from the spec: [setWindEnuMetersPerSec (vector)], missing from the
    class at hand, "sets ambient wind used by relative-airflow computation for
    subsequent updates". *)
Definition setWindEnuMetersPerSec (m : WindModel) (vector : Vector3) : WindModel :=
  {| fdm := fdm m; windEnuMetersPerSec := vector |}.

(** Modelled from the spec: the relative airflow of a substep under wind,
    missing from [update] at hand: wind is "a vector subtracted from world
    velocity before the body-frame transform in step 4". *)
Definition relativeAirflowBody (wind : Vector3) (st : AircraftState) : Vector3 :=
  let rBodyToEnu := matrixFromQuaternion (orientation st) in
  let rEnuToBody := transpose3 rBodyToEnu in
  multiplyMatrixVector3 rEnuToBody
    (add (velocityEnuMetersPerSec st) (scale wind (-1))).

(** Modelled from the spec: the force of step 6 computed on the relative
    airflow of step 4, for the state at the start of a substep. *)
Definition forceBodyInWind
    (wind : Vector3) (ps : AircraftParameters) (cfg : FdmConfig)
    (inputs : ControlInputs) (dt : R) (st : AircraftState) : Vector3 :=
  bodyForce ps cfg inputs (relativeAirflowBody wind (integrateAttitude cfg inputs dt st)).

(** Modelled from the spec: the substep of [update] with the wind of the model
    taken into account; every other step is the one of the source. *)
Definition substepInWind
    (wind : Vector3) (ps : AircraftParameters) (cfg : FdmConfig)
    (inputs : ControlInputs) (dt : R) (st : AircraftState) : AircraftState :=
  let st1 := integrateAttitude cfg inputs dt st in
  let rBodyToEnu := matrixFromQuaternion (orientation st1) in
  integrateTranslation ps dt rBodyToEnu (forceBodyInWind wind ps cfg inputs dt st) st1.

(** Modelled from the spec: [update] of a model with wind, the guard and the
    substep loop being those of the source. *)
Definition updateInWind (m : WindModel) (dtSeconds : JsNumber) (inputs : ControlInputs)
  : option WindModel :=
  if negb (isFinite dtSeconds) || leZero dtSeconds then Some m
  else
    let remaining := Rmin (finiteValue dtSeconds) 0.25 in
    option_map
      (fun st => {| fdm := withState (fdm m) st;
                    windEnuMetersPerSec := windEnuMetersPerSec m |})
      (whileRemaining
         (substepInWind (windEnuMetersPerSec m) (params (fdm m)) (config (fdm m)) inputs)
         loopFuel remaining (state (fdm m))).

End Wind.

(** ** Free fall *)

(** The aircraft [t] seconds after it was dropped from rest with its wings
    level and its controls neutral: still level, no lateral velocity, sinking
    between [9 t] and [g t] m/s (the shortfall from [g t] growing by at least
    2 mm/s per second once the fall has lasted 0.52 s) and drifting backwards
    at no more than [8 t] m/s. *)
Definition Falling (t : R) (st : AircraftState) : Prop :=
  orientation st = identityQuaternion
  /\ rollRad st = 0
  /\ vy (velocityEnuMetersPerSec st) = 0
  /\ -8 * t <= vx (velocityEnuMetersPerSec st) <= 0
  /\ (0.04 <= t -> vx (velocityEnuMetersPerSec st) < 0)
  /\ - GRAVITY_M_S2 * t <= vz (velocityEnuMetersPerSec st) <= -9 * t
  /\ - GRAVITY_M_S2 * t + 0.002 * Rmax 0 (t - 0.52) <= vz (velocityEnuMetersPerSec st).

(** The seconds that the cap of [update] lets through of a list of requests. *)
Definition cappedSeconds (requests : list R) : R :=
  fold_right (fun x acc => Rmin x 0.25 + acc) 0 requests.

(** One call of [update] per request, all with the controls neutral. *)
Definition neutralCalls (requests : list R) : list (JsNumber * ControlInputs) :=
  map (fun x => (Finite x, neutralControls)) requests.

(** ** The state bus of [state.ts] *)

Module StateBus.

(** A subscriber is a function object; what matters of it is which one it is
    (a number here), and calling it is recorded as a delivery
    [(subscriber, state)].  [subscribers] is the [Set] in insertion order,
    [last_] is [_last], [None] for [undefined]. *)
Record Bus (T : Type) : Type := mkBus {
  subscribers : list nat;
  last_ : option T
}.

Arguments mkBus {T} _ _.
Arguments subscribers {T} _.
Arguments last_ {T} _.

Definition newBus {T : Type} : Bus T := {| subscribers := []; last_ := None |}.

(** [Set.has], [Set.add], [Set.delete] *)
Definition setHas (fn : nat) (s : list nat) : bool := existsb (Nat.eqb fn) s.

Definition setAdd (fn : nat) (s : list nat) : list nat :=
  if setHas fn s then s else s ++ [fn].

Definition setDelete (fn : nat) (s : list nat) : list nat :=
  filter (fun g => negb (Nat.eqb fn g)) s.

(** [subscribe (fn)]: the bus afterwards and the calls made. *)
Definition subscribe {T : Type} (fn : nat) (b : Bus T) : Bus T * list (nat * T) :=
  ({| subscribers := setAdd fn (subscribers b); last_ := last_ b |},
   match last_ b with
   | Some s => [(fn, s)]
   | None => []
   end).

(** The function that [subscribe (fn)] returns. *)
Definition unsubscribe {T : Type} (fn : nat) (b : Bus T) : Bus T :=
  {| subscribers := setDelete fn (subscribers b); last_ := last_ b |}.

(** [publish (state)]: the bus afterwards and the calls made, in order. *)
Definition publish {T : Type} (state : T) (b : Bus T) : Bus T * list (nat * T) :=
  ({| subscribers := subscribers b; last_ := Some state |},
   map (fun fn => (fn, state)) (subscribers b)).

Inductive BusCall (T : Type) : Type :=
| Subscribe (fn : nat)
| Unsubscribe (fn : nat)
| Publish (state : T).

Arguments Subscribe {T} _.
Arguments Unsubscribe {T} _.
Arguments Publish {T} _.

Definition call {T : Type} (c : BusCall T) (b : Bus T) : Bus T * list (nat * T) :=
  match c with
  | Subscribe fn => subscribe fn b
  | Unsubscribe fn => (unsubscribe fn b, [])
  | Publish s => publish s b
  end.

(** A history of calls: the bus afterwards and every delivery, in order. *)
Fixpoint calls {T : Type} (cs : list (BusCall T)) (b : Bus T) : Bus T * list (nat * T) :=
  match cs with
  | [] => (b, [])
  | c :: rest =>
      let (b1, out1) := call c b in
      let (b2, out2) := calls rest b1 in
      (b2, out1 ++ out2)
  end.

(** The state of the latest [publish] of a history. *)
Fixpoint lastPublished {T : Type} (cs : list (BusCall T)) (before : option T) : option T :=
  match cs with
  | [] => before
  | Publish s :: rest => lastPublished rest (Some s)
  | _ :: rest => lastPublished rest before
  end.

(** Whether the latest of the subscribe and unsubscribe calls of a history
    that concern [fn] is a subscribe. *)
Fixpoint subscribedAfter {T : Type} (cs : list (BusCall T)) (fn : nat) (before : bool) : bool :=
  match cs with
  | [] => before
  | Subscribe g :: rest => subscribedAfter rest fn (if Nat.eqb fn g then true else before)
  | Unsubscribe g :: rest => subscribedAfter rest fn (if Nat.eqb fn g then false else before)
  | Publish _ :: rest => subscribedAfter rest fn before
  end.

End StateBus.

(** ** The control loop of [main.ts] *)

Module MainLoop.

(** [keyState.has (key)] on the set of keys that are down. *)
Definition has (keyState : list string) (key : string) : bool :=
  existsb (String.eqb key) keyState.

Definition withElevator (inputs : ControlInputs) (v : R) : ControlInputs :=
  {| elevator := v; ailerons := ailerons inputs;
     rudder := rudder inputs; throttle := throttle inputs |}.
Definition withAilerons (inputs : ControlInputs) (v : R) : ControlInputs :=
  {| elevator := elevator inputs; ailerons := v;
     rudder := rudder inputs; throttle := throttle inputs |}.
Definition withRudder (inputs : ControlInputs) (v : R) : ControlInputs :=
  {| elevator := elevator inputs; ailerons := ailerons inputs;
     rudder := v; throttle := throttle inputs |}.
Definition withThrottle (inputs : ControlInputs) (v : R) : ControlInputs :=
  {| elevator := elevator inputs; ailerons := ailerons inputs;
     rudder := rudder inputs; throttle := v |}.

(** The initial value of [inputs]. *)
Definition initialInputs : ControlInputs :=
  {| elevator := 0; ailerons := 0; rudder := 0; throttle := 0.75 |}.

(** [updateInputsFromKeyboard ()], one definition for each of its five
    statements, in the order they run. *)
Definition keyboardElevator (keyState : list string) (inputs : ControlInputs)
  : ControlInputs :=
  if has keyState "ArrowUp" || has keyState "ArrowDown" then
    let e := (if has keyState "ArrowUp" then -1 else 0)
             + (if has keyState "ArrowDown" then 1 else 0) in
    withElevator inputs (Rmax (-1) (Rmin 1 e))
  else inputs.

Definition keyboardAilerons (keyState : list string) (inputs : ControlInputs)
  : ControlInputs :=
  if has keyState "ArrowLeft" || has keyState "ArrowRight" then
    let a := (if has keyState "ArrowRight" then 1 else 0)
             + (if has keyState "ArrowLeft" then -1 else 0) in
    withAilerons inputs (Rmax (-1) (Rmin 1 a))
  else inputs.

Definition keyboardRudder (keyState : list string) (inputs : ControlInputs)
  : ControlInputs :=
  if has keyState "e" || has keyState "E" || has keyState "q" || has keyState "Q" then
    let rd := (if has keyState "e" || has keyState "E" then 1 else 0)
              + (if has keyState "q" || has keyState "Q" then -1 else 0) in
    withRudder inputs (Rmax (-1) (Rmin 1 rd))
  else inputs.

Definition keyboardThrottleUp (keyState : list string) (inputs : ControlInputs)
  : ControlInputs :=
  if has keyState "x" || has keyState "X"
  then withThrottle inputs (Rmin 1 (throttle inputs + 0.5 / 60))
  else inputs.

Definition keyboardThrottleDown (keyState : list string) (inputs : ControlInputs)
  : ControlInputs :=
  if has keyState "z" || has keyState "Z"
  then withThrottle inputs (Rmax 0 (throttle inputs - 0.5 / 60))
  else inputs.

Definition updateInputsFromKeyboard (keyState : list string) (inputs : ControlInputs)
  : ControlInputs :=
  keyboardThrottleDown keyState
    (keyboardThrottleUp keyState
       (keyboardRudder keyState
          (keyboardAilerons keyState
             (keyboardElevator keyState inputs)))).




(** The seconds that the tick handler passes to [fdm.update], [None] when it
    returns before the call. *)
Definition tickSeconds (dt : JsNumber) : option R :=
  if negb (isFinite dt) || leZero dt then None
  else Some (if Rgt_dec (finiteValue dt) 0.1 then 0.1 else finiteValue dt).







End MainLoop.

(** * Properties *)

(** ** Square roots, norms and clamping *)

Lemma hypot3_nonneg (a b c : R) : 0 <= hypot3 a b c.
Proof. unfold hypot3. apply sqrt_pos. Qed.

Lemma hypot3_sqr (a b c : R) : hypot3 a b c * hypot3 a b c = a * a + b * b + c * c.
Proof. unfold hypot3. apply sqrt_sqrt. nra. Qed.

Lemma hypot4_sqr (a b c d : R) :
  hypot4 a b c d * hypot4 a b c d = a * a + b * b + c * c + d * d.
Proof. unfold hypot4. apply sqrt_sqrt. nra. Qed.

Lemma hypot3_axis (a : R) : 0 <= a -> hypot3 a 0 0 = a.
Proof.
  intros Ha. unfold hypot3.
  replace (a * a + 0 * 0 + 0 * 0) with (a * a) by ring.
  now apply sqrt_square.
Qed.

Lemma magnitude_nonneg (v : Vector3) : 0 <= magnitude v.
Proof. apply hypot3_nonneg. Qed.

Lemma magnitude_scale (v : Vector3) (s : R) :
  0 <= s -> magnitude (scale v s) = magnitude v * s.
Proof.
  intros Hs. unfold magnitude, scale, hypot3; simpl.
  replace (vx v * s * (vx v * s) + vy v * s * (vy v * s) + vz v * s * (vz v * s))
    with ((vx v * vx v + vy v * vy v + vz v * vz v) * (s * s)) by ring.
  rewrite sqrt_mult_alt by nra.
  now rewrite (sqrt_square s).
Qed.

Lemma normalize_large (v : Vector3) :
  magnitude v > 1e-6 -> normalize v = scale v (1 / magnitude v).
Proof.
  intros H. unfold normalize. destruct (Rgt_dec (magnitude v) 1e-6); [reflexivity | contradiction].
Qed.

Lemma clamp_inside (value lo hi : R) : lo <= value <= hi -> clamp value lo hi = value.
Proof.
  intros [H1 H2]. unfold clamp.
  rewrite (Rmin_right hi value) by exact H2.
  now apply Rmax_right.
Qed.

Lemma clamp_above (value lo hi : R) : lo <= hi -> hi <= value -> clamp value lo hi = hi.
Proof.
  intros H1 H2. unfold clamp.
  rewrite (Rmin_left hi value) by exact H2.
  now apply Rmax_right.
Qed.

Lemma clamp_below (value lo hi : R) : value <= lo -> clamp value lo hi = lo.
Proof.
  intros H. unfold clamp. apply Rmax_left.
  apply Rle_trans with value; [apply Rmin_r | exact H].
Qed.

Lemma clamp_bounds (value lo hi : R) : lo <= hi -> lo <= clamp value lo hi <= hi.
Proof.
  intros H. unfold clamp. split.
  - apply Rmax_l.
  - apply Rmax_lub; [exact H | apply Rmin_l].
Qed.

Lemma clamp_idempotent (value lo hi : R) :
  lo <= hi -> clamp (clamp value lo hi) lo hi = clamp value lo hi.
Proof. intros H. apply clamp_inside. now apply clamp_bounds. Qed.

(** ** Aerodynamic coefficients *)

(** C7: [calculateLiftCoefficient] is [clSlopePerRad * alpha] when
    [|alpha| <= stallAlphaRad]; for every [alpha] outside that bound it is the
    boundary value [clSlopePerRad * stallAlphaRad] or
    [clSlopePerRad * (- stallAlphaRad)], the upper one above a stall angle that
    is not negative and the lower one below it. *)
Theorem calculateLiftCoefficient_linear_then_saturated
    (alpha clSlope stallAlpha : R) :
  (Rabs alpha <= stallAlpha ->
     calculateLiftCoefficient alpha clSlope stallAlpha = clSlope * alpha)
  /\ (stallAlpha < Rabs alpha ->
        calculateLiftCoefficient alpha clSlope stallAlpha = clSlope * stallAlpha
        \/ calculateLiftCoefficient alpha clSlope stallAlpha = clSlope * (- stallAlpha))
  /\ (0 <= stallAlpha -> stallAlpha < alpha ->
        calculateLiftCoefficient alpha clSlope stallAlpha = clSlope * stallAlpha)
  /\ (0 <= stallAlpha -> alpha < - stallAlpha ->
        calculateLiftCoefficient alpha clSlope stallAlpha = clSlope * (- stallAlpha)).
Proof.
  unfold calculateLiftCoefficient. repeat split.
  - intros H. rewrite clamp_inside; [reflexivity |].
    unfold Rabs in H. destruct (Rcase_abs alpha); lra.
  - intros H. unfold clamp, Rmax, Rmin, Rabs in *.
    destruct (Rcase_abs alpha); destruct (Rle_dec stallAlpha alpha);
      destruct (Rle_dec (- stallAlpha) _); auto; exfalso; lra.
  - intros H0 H. rewrite clamp_above; [reflexivity | lra | lra].
  - intros H0 H. rewrite clamp_below; [reflexivity | lra].
Qed.

Lemma calculateLiftCoefficient_linear_then_saturated_witness :
  calculateLiftCoefficient 0.1 5.7 0.25 = 5.7 * 0.1
  /\ calculateLiftCoefficient 0.5 5.7 0.25 = 5.7 * 0.25
  /\ calculateLiftCoefficient (-0.5) 5.7 0.25 = 5.7 * - (0.25).
Proof.
  destruct (calculateLiftCoefficient_linear_then_saturated 0.1 5.7 0.25) as [H1 _].
  destruct (calculateLiftCoefficient_linear_then_saturated 0.5 5.7 0.25) as [_ [_ [H2 _]]].
  destruct (calculateLiftCoefficient_linear_then_saturated (-0.5) 5.7 0.25) as [_ [_ [_ H3]]].
  split; [| split].
  - apply H1. unfold Rabs. destruct (Rcase_abs 0.1); lra.
  - apply H2; lra.
  - apply H3; lra.
Defined.

(** C8: with the lift coefficient, the air density and the wing area fixed,
    doubling the speed quadruples [calculateLiftNewtons], and both
    [calculateLiftNewtons] and [calculateDragNewtons] are zero at speed zero. *)
Theorem lift_quadratic_in_speed_and_zero_at_rest
    (cl cd airDensity wingArea speed : R) :
  calculateLiftNewtons cl airDensity (2 * speed) wingArea
    = 4 * calculateLiftNewtons cl airDensity speed wingArea
  /\ calculateLiftNewtons cl airDensity 0 wingArea = 0
  /\ calculateDragNewtons cd airDensity 0 wingArea = 0.
Proof.
  unfold calculateLiftNewtons, calculateDragNewtons. repeat split; ring.
Qed.

(** ** The guard of [update] and the constructor *)

(** C9: for a [dtSeconds] that is not finite ([NaN], [Infinity], [-Infinity])
    or is at most zero, [update] returns normally and the model, hence every
    field of the aircraft state, is unchanged, whatever the controls. *)
Theorem update_guard_no_op
    (m : FlightDynamicsModel) (dtSeconds : JsNumber) (inputs : ControlInputs) :
  (dtSeconds = NaN \/ dtSeconds = PosInfinity \/ dtSeconds = NegInfinity
   \/ exists x, dtSeconds = Finite x /\ x <= 0) ->
  update m dtSeconds inputs = Some m.
Proof.
  intros [-> | [-> | [-> | [x [-> Hx]]]]]; unfold update; simpl; try reflexivity.
  destruct (Rle_dec x 0); [reflexivity | contradiction].
Qed.

Lemma update_guard_no_op_witness :
  let m := newFlightDynamicsModel defaultParams defaultState DefaultFdmConfig in
  update m NaN neutralControls = Some m
  /\ update m PosInfinity neutralControls = Some m
  /\ update m (Finite (-1)) neutralControls = Some m.
Proof.
  intros m. split; [| split].
  - apply update_guard_no_op. now left.
  - apply update_guard_no_op. right. now left.
  - apply update_guard_no_op. right. right. right. exists (-1). split; [reflexivity | lra].
Defined.

(** C10: the constructor replaces the orientation quaternion of the initial
    state by [quaternionFromYawPitchRoll] of its yaw, pitch and roll and keeps
    every other field, so the model built does not depend on the orientation
    that was passed in. *)
Theorem constructor_orientation_from_euler
    (ps : AircraftParameters) (initialState : AircraftState) (cfg : FdmConfig)
    (passedIn : Quaternion) :
  let m := newFlightDynamicsModel ps initialState cfg in
  orientation (state m)
    = quaternionFromYawPitchRoll (yawRad initialState) (pitchRad initialState)
        (rollRad initialState)
  /\ positionEnuMeters (state m) = positionEnuMeters initialState
  /\ velocityEnuMetersPerSec (state m) = velocityEnuMetersPerSec initialState
  /\ yawRad (state m) = yawRad initialState
  /\ pitchRad (state m) = pitchRad initialState
  /\ rollRad (state m) = rollRad initialState
  /\ angularRatesRadPerSec (state m) = angularRatesRadPerSec initialState
  /\ newFlightDynamicsModel ps (withOrientation initialState passedIn) cfg = m.
Proof. simpl. repeat split. Qed.

(** ** The substep loop *)

Lemma whileRemaining_done {St : Type} (body : R -> St -> St)
    (fuel : nat) (remaining : R) (s : St) :
  remaining <= 1e-6 -> whileRemaining body fuel remaining s = Some s.
Proof.
  intros H. destruct fuel; simpl; destruct (Rgt_dec remaining 1e-6); try reflexivity; lra.
Qed.

Lemma whileRemaining_pass {St : Type} (body : R -> St -> St)
    (fuel : nat) (remaining : R) (s : St) :
  1e-6 < remaining ->
  whileRemaining body (S fuel) remaining s
  = whileRemaining body fuel (remaining - Rmin maxStep remaining)
      (body (Rmin maxStep remaining) s).
Proof.
  intros H. simpl. destruct (Rgt_dec remaining 1e-6); [reflexivity | lra].
Qed.

Section SubstepLoop.

Context {St : Type} (body : R -> St -> St).

(** With [fuel] passes of [maxStep] seconds covering [remaining], the loop
    ends by its own test; what it computes is the fold of its body over the
    substep sizes, which the same loop collects when run on a list. *)
Lemma whileRemaining_trace :
  forall (fuel : nat) (remaining : R) (acc : list R) (s : St),
    remaining <= maxStep * INR fuel ->
    exists sizes,
      whileRemaining (fun dt l => l ++ [dt]) fuel remaining acc = Some (acc ++ sizes)
      /\ whileRemaining body fuel remaining s
         = Some (fold_left (fun s' dt => body dt s') sizes s)
      /\ Forall (fun d => 0 < d <= maxStep) sizes
      /\ remaining - totalSeconds sizes <= 1e-6
      /\ (0 <= remaining -> 0 <= remaining - totalSeconds sizes)
      /\ (1e-6 < remaining -> sizes <> []).
Proof.
  unfold maxStep.
  induction fuel as [| fuel IH]; intros remaining acc s Hfuel.
  - simpl in Hfuel. exists []. rewrite app_nil_r.
    rewrite !whileRemaining_done by lra. simpl.
    split; [reflexivity |]. split; [reflexivity |]. split; [constructor |].
      split; [lra |]. split; intros; lra.
  - destruct (Rle_dec remaining 1e-6) as [Hsmall | Hbig].
    + exists []. rewrite app_nil_r.
      rewrite !whileRemaining_done by lra. simpl.
      split; [reflexivity |]. split; [reflexivity |]. split; [constructor |].
      split; [lra |]. split; intros; lra.
    + assert (Hgt : 1e-6 < remaining) by lra.
      rewrite !whileRemaining_pass by exact Hgt.
      set (dt := Rmin maxStep remaining).
      assert (Hdt : 0 < dt <= 0.02 /\ dt <= remaining
                    /\ (remaining <= 0.02 -> dt = remaining)
                    /\ (0.02 <= remaining -> dt = 0.02)).
      { unfold dt, maxStep, Rmin. destruct (Rle_dec 0.02 remaining); lra. }
      destruct Hdt as [Hdt1 [Hdt2 [Hdt3 Hdt4]]].
      rewrite S_INR in Hfuel.
      destruct (IH (remaining - dt) (acc ++ [dt]) (body dt s)) as
        [sizes [Hl [Hb [Hall [Hres [Hpos _]]]]]].
      { destruct (Rle_dec remaining 0.02) as [Hle | Hgt2].
        - rewrite (Hdt3 Hle).
          assert (0 <= INR fuel) by apply pos_INR. lra.
        - rewrite Hdt4 by lra. lra. }
      exists (dt :: sizes). rewrite <- app_assoc in Hl. simpl in Hl.
      simpl. repeat split.
      * exact Hl.
      * exact Hb.
      * constructor; [unfold maxStep; lra | exact Hall].
      * lra.
      * intros _. lra.
      * discriminate.
Qed.

End SubstepLoop.

Lemma loopFuel_covers (remaining : R) : remaining <= 0.25 -> remaining <= maxStep * INR loopFuel.
Proof. intros H. unfold maxStep, loopFuel. simpl. lra. Qed.

Lemma withState_state (m : FlightDynamicsModel) : withState m (state m) = m.
Proof. now destruct m. Qed.

(** Every call of [update] returns, and its effect on the state is that of a
    run of substeps, each of at most [maxStep] seconds; the run is not empty
    when [dtSeconds] is finite and above the loop threshold. *)
Lemma update_as_run (m : FlightDynamicsModel) (dtSeconds : JsNumber) (inputs : ControlInputs) :
  exists sizes,
    update m dtSeconds inputs
    = Some (withState m (runSubsteps (params m) (config m) inputs sizes (state m)))
    /\ Forall (fun d => 0 < d <= maxStep) sizes
    /\ (forall x, dtSeconds = Finite x -> 1e-6 < x -> sizes <> []).
Proof.
  unfold update.
  destruct (negb (isFinite dtSeconds) || leZero dtSeconds) eqn:Hguard.
  - exists []. simpl. rewrite withState_state. repeat split; [constructor |].
    intros x -> Hx. simpl in Hguard. destruct (Rle_dec x 0); [lra | discriminate].
  - destruct dtSeconds as [x | | |]; simpl in Hguard; try discriminate.
    destruct (Rle_dec x 0) as [| Hx]; [discriminate |]. cbn [finiteValue].
    destruct (whileRemaining_trace (substep (params m) (config m) inputs)
                loopFuel (Rmin x 0.25) [] (state m))
      as [sizes [_ [Hb [Hall [_ [_ Hne]]]]]].
    { apply loopFuel_covers. apply Rmin_r. }
    exists sizes. rewrite Hb. cbn [option_map]. repeat split; [exact Hall |].
    intros y Hy Hbig. injection Hy as <-. apply Hne.
    unfold Rmin. destruct (Rle_dec x 0.25); lra.
Qed.

(** An invariant of the substeps is an invariant of [runSubsteps]. *)
Lemma runSubsteps_invariant
    (ps : AircraftParameters) (cfg : FdmConfig) (inputs : ControlInputs)
    (P : AircraftState -> Prop) :
  (forall dt st, 0 < dt <= maxStep -> P st -> P (substep ps cfg inputs dt st)) ->
  forall sizes st,
    Forall (fun d => 0 < d <= maxStep) sizes -> P st ->
    P (runSubsteps ps cfg inputs sizes st).
Proof.
  intros Hstep. unfold runSubsteps.
  induction sizes as [| d sizes IH]; intros st Hall HP; simpl.
  - exact HP.
  - inversion Hall; subst. apply IH; [assumption |]. now apply Hstep.
Qed.

(** What every substep establishes holds after a run that is not empty. *)
Lemma runSubsteps_establishes
    (ps : AircraftParameters) (cfg : FdmConfig) (inputs : ControlInputs)
    (P : AircraftState -> Prop) :
  (forall dt st, P (substep ps cfg inputs dt st)) ->
  forall sizes st, sizes <> [] -> P (runSubsteps ps cfg inputs sizes st).
Proof.
  intros Hstep sizes. unfold runSubsteps.
  induction sizes as [| d sizes IH]; intros st Hne; [contradiction |].
  simpl. destruct sizes as [| d' sizes'].
  - simpl. apply Hstep.
  - apply IH. discriminate.
Qed.

(** A counterpart of C3 as it is worded: a request of exactly one microsecond
    is let through by the guard, the loop then takes no substep, and the time
    left over, [1e-6] seconds, is not smaller than [1e-6]. *)
Lemma update_residue_reaches_threshold :
  let m := newFlightDynamicsModel defaultParams defaultState DefaultFdmConfig in
  update m (Finite 1e-6) neutralControls = Some m
  /\ substepSizes (Rmin 1e-6 0.25) = Some []
  /\ ~ (exists sizes,
          substepSizes (Rmin 1e-6 0.25) = Some sizes
          /\ Rmin 1e-6 0.25 - totalSeconds sizes < 1e-6).
Proof.
  intros m.
  assert (Hmin : Rmin 1e-6 0.25 = 1e-6) by (apply Rmin_left; lra).
  assert (Hsizes : substepSizes (Rmin 1e-6 0.25) = Some []).
  { unfold substepSizes. rewrite Hmin. apply whileRemaining_done. lra. }
  split; [| split].
  - unfold update. cbn [isFinite negb leZero orb finiteValue].
    destruct (Rle_dec 1e-6 0); [lra |].
    rewrite Hmin. rewrite whileRemaining_done by lra. cbn [option_map].
    now rewrite withState_state.
  - exact Hsizes.
  - intros [sizes [Hs Hlt]]. rewrite Hsizes in Hs. injection Hs as <-.
    rewrite Hmin in Hlt. simpl in Hlt. lra.
Qed.

(** C3 (amended): for a finite [dtSeconds > 0], [update] returns after a run
    of substeps, each longer than zero and at most 0.02 s, the state being
    advanced once per substep; the simulated time they cover is
    [min (dtSeconds, 0.25)] less a discarded residue that is at least zero and
    at most [1e-6] s. *)
Theorem update_consumes_capped_time_in_substeps
    (m : FlightDynamicsModel) (dtSeconds : R) (inputs : ControlInputs) :
  0 < dtSeconds ->
  exists sizes,
    substepSizes (Rmin dtSeconds 0.25) = Some sizes
    /\ update m (Finite dtSeconds) inputs
       = Some (withState m (runSubsteps (params m) (config m) inputs sizes (state m)))
    /\ Forall (fun d => 0 < d <= 0.02) sizes
    /\ 0 <= Rmin dtSeconds 0.25 - totalSeconds sizes <= 1e-6.
Proof.
  intros Hdt.
  destruct (whileRemaining_trace (substep (params m) (config m) inputs)
              loopFuel (Rmin dtSeconds 0.25) [] (state m))
    as [sizes [Hl [Hb [Hall [Hres [Hpos _]]]]]].
  { apply loopFuel_covers. apply Rmin_r. }
  exists sizes. split; [exact Hl |]. split; [| split].
  - unfold update. cbn [isFinite negb leZero orb finiteValue].
    destruct (Rle_dec dtSeconds 0); [lra |].
    now rewrite Hb.
  - exact Hall.
  - split; [| exact Hres]. apply Hpos.
    unfold Rmin. destruct (Rle_dec dtSeconds 0.25); lra.
Qed.

Lemma update_consumes_capped_time_in_substeps_witness :
  let m := newFlightDynamicsModel defaultParams defaultState DefaultFdmConfig in
  exists sizes,
    substepSizes (Rmin 0.05 0.25) = Some sizes
    /\ update m (Finite 0.05) neutralControls
       = Some (withState m (runSubsteps (params m) (config m) neutralControls sizes (state m)))
    /\ Forall (fun d => 0 < d <= 0.02) sizes
    /\ 0 <= Rmin 0.05 0.25 - totalSeconds sizes <= 1e-6.
Proof.
  intros m. apply (update_consumes_capped_time_in_substeps m 0.05 neutralControls). lra.
Defined.

(** ** Unit orientation *)

Lemma quaternionNormalize_unit (a : Quaternion) :
  quaternionMagnitude (quaternionNormalize a) = 1.
Proof.
  unfold quaternionNormalize.
  destruct (Req_dec_T (hypot4 (qx a) (qy a) (qz a) (qw a)) 0) as [Hz | Hnz].
  - unfold quaternionMagnitude, hypot4; simpl.
    replace (0 * 0 + 0 * 0 + 0 * 0 + 1 * 1) with 1 by ring. apply sqrt_1.
  - pose proof (hypot4_sqr (qx a) (qy a) (qz a) (qw a)) as Hsq.
    set (m := hypot4 (qx a) (qy a) (qz a) (qw a)) in *.
    unfold quaternionMagnitude; simpl. unfold hypot4 at 1.
    replace (qx a * (1 / m) * (qx a * (1 / m)) + qy a * (1 / m) * (qy a * (1 / m))
             + qz a * (1 / m) * (qz a * (1 / m)) + qw a * (1 / m) * (qw a * (1 / m)))
      with 1.
    + apply sqrt_1.
    + field_simplify_eq; [| exact Hnz]. lra.
Qed.

Lemma quaternionFromYawPitchRoll_unit (yaw0 pitch0 roll0 : R) :
  quaternionMagnitude (quaternionFromYawPitchRoll yaw0 pitch0 roll0) = 1.
Proof.
  unfold quaternionMagnitude, quaternionFromYawPitchRoll, hypot4; simpl.
  pose proof (sin2_cos2 (yaw0 * 0.5)) as Hy.
  pose proof (sin2_cos2 (pitch0 * 0.5)) as Hp.
  pose proof (sin2_cos2 (roll0 * 0.5)) as Hr.
  unfold Rsqr in *.
  set (cy := cos (yaw0 * 0.5)) in *. set (sy := sin (yaw0 * 0.5)) in *.
  set (cp := cos (pitch0 * 0.5)) in *. set (sp := sin (pitch0 * 0.5)) in *.
  set (cr := cos (roll0 * 0.5)) in *. set (sr := sin (roll0 * 0.5)) in *.
  match goal with |- sqrt ?e = 1 =>
    replace e with ((sr * sr + cr * cr) * (sp * sp + cp * cp) * (sy * sy + cy * cy)) by ring
  end.
  rewrite Hy, Hp, Hr. replace (1 * 1 * 1) with 1 by ring. apply sqrt_1.
Qed.

Lemma substep_orientation
    (ps : AircraftParameters) (cfg : FdmConfig) (inputs : ControlInputs)
    (dt : R) (st : AircraftState) :
  orientation (substep ps cfg inputs dt st)
  = orientation (integrateAttitude cfg inputs dt st).
Proof. reflexivity. Qed.

Lemma substep_orientation_unit
    (ps : AircraftParameters) (cfg : FdmConfig) (inputs : ControlInputs)
    (dt : R) (st : AircraftState) :
  quaternionMagnitude (orientation (substep ps cfg inputs dt st)) = 1.
Proof.
  rewrite substep_orientation. unfold integrateAttitude, integrateOrientation.
  cbn [orientation]. apply quaternionNormalize_unit.
Qed.

Lemma update_orientation_unit
    (m : FlightDynamicsModel) (dtSeconds : JsNumber) (inputs : ControlInputs) :
  quaternionMagnitude (orientation (state m)) = 1 ->
  exists m', update m dtSeconds inputs = Some m'
             /\ quaternionMagnitude (orientation (state m')) = 1.
Proof.
  intros Hunit.
  destruct (update_as_run m dtSeconds inputs) as [sizes [Hupd [Hall _]]].
  eexists. split; [exact Hupd |]. cbn [withState state].
  apply (runSubsteps_invariant _ _ _
           (fun st => quaternionMagnitude (orientation st) = 1)); auto.
  intros dt st _ _. apply substep_orientation_unit.
Qed.

(** C1: whatever the parameters, the initial state and the configuration the
    model is built from, and whatever the run of [update] calls, with any
    [dtSeconds] and any controls, every call returns and the orientation
    quaternion of the state has magnitude 1 afterwards (in exact arithmetic:
    it comes out of [quaternionNormalize] in every substep). *)
Theorem orientation_unit_after_updates
    (ps : AircraftParameters) (initialState : AircraftState) (cfg : FdmConfig)
    (calls : list (JsNumber * ControlInputs)) :
  exists m',
    updates (newFlightDynamicsModel ps initialState cfg) calls = Some m'
    /\ quaternionMagnitude (orientation (state m')) = 1.
Proof.
  assert (Hnew : quaternionMagnitude
                   (orientation (state (newFlightDynamicsModel ps initialState cfg))) = 1).
  { cbn [newFlightDynamicsModel state withOrientation orientation].
    apply quaternionFromYawPitchRoll_unit. }
  revert Hnew. generalize (newFlightDynamicsModel ps initialState cfg) as m.
  induction calls as [| [dt inputs] rest IH]; intros m Hunit.
  - exists m. now split.
  - destruct (update_orientation_unit m dt inputs Hunit) as [m1 [Hupd Hunit1]].
    cbn [updates]. rewrite Hupd. now apply IH.
Qed.

(** ** The speed limit *)

Lemma integrateTranslation_velocity
    (ps : AircraftParameters) (dt : R) (rBodyToEnu : Matrix3) (forceBody : Vector3)
    (st : AircraftState) :
  velocityEnuMetersPerSec (integrateTranslation ps dt rBodyToEnu forceBody st)
  = let v1 := integratedVelocity ps dt rBodyToEnu forceBody st in
    if Rgt_dec (magnitude v1) maxSpeed then scale (normalize v1) maxSpeed else v1.
Proof. reflexivity. Qed.

Lemma rescaled_to_cap (v : Vector3) :
  maxSpeed < magnitude v ->
  scale (normalize v) maxSpeed
  = {| vx := vx v * (1 / magnitude v) * maxSpeed;
       vy := vy v * (1 / magnitude v) * maxSpeed;
       vz := vz v * (1 / magnitude v) * maxSpeed |}
  /\ magnitude (scale (normalize v) maxSpeed) = maxSpeed.
Proof.
  unfold maxSpeed. intros Hbig.
  rewrite normalize_large by lra. split; [reflexivity |].
  assert (Hinv : 0 <= 1 / magnitude v) by (apply Rlt_le, Rdiv_lt_0_compat; lra).
  rewrite !magnitude_scale by (exact Hinv || lra).
  field. lra.
Qed.

Lemma integrateTranslation_speed
    (ps : AircraftParameters) (dt : R) (rBodyToEnu : Matrix3) (forceBody : Vector3)
    (st : AircraftState) :
  magnitude (velocityEnuMetersPerSec (integrateTranslation ps dt rBodyToEnu forceBody st))
  <= maxSpeed.
Proof.
  rewrite integrateTranslation_velocity. cbv zeta.
  destruct (Rgt_dec _ maxSpeed) as [Hbig | Hok].
  - destruct (rescaled_to_cap _ Hbig) as [_ ->]. lra.
  - lra.
Qed.

Lemma substep_speed
    (ps : AircraftParameters) (cfg : FdmConfig) (inputs : ControlInputs)
    (dt : R) (st : AircraftState) :
  magnitude (velocityEnuMetersPerSec (substep ps cfg inputs dt st)) <= maxSpeed.
Proof. unfold substep. cbv zeta. apply integrateTranslation_speed. Qed.

Lemma update_speed
    (m : FlightDynamicsModel) (dtSeconds : JsNumber) (inputs : ControlInputs) :
  exists m',
    update m dtSeconds inputs = Some m'
    /\ (speedOf m <= maxSpeed -> speedOf m' <= maxSpeed)
    /\ (forall x, dtSeconds = Finite x -> 1e-6 < x -> speedOf m' <= maxSpeed).
Proof.
  destruct (update_as_run m dtSeconds inputs) as [sizes [Hupd [Hall Hne]]].
  eexists. split; [exact Hupd |]. unfold speedOf. cbn [withState state]. split.
  - intros Hm.
    apply (runSubsteps_invariant _ _ _
             (fun st => magnitude (velocityEnuMetersPerSec st) <= maxSpeed)); auto.
    intros dt st _ _. apply substep_speed.
  - intros x Hx Hbig.
    apply (runSubsteps_establishes _ _ _
             (fun st => magnitude (velocityEnuMetersPerSec st) <= maxSpeed)).
    + intros dt st. apply substep_speed.
    + now apply (Hne x).
Qed.

(** A counterpart of C4 as it is worded: a model built with an initial speed
    of 300 m/s is still at 300 m/s after a call that the guard turns away
    ([dtSeconds = 0]) and after a call whose finite positive [dtSeconds] is
    too short for a substep ([1e-6]), full throttle or not. *)
Lemma speed_above_cap_survives_update :
  let fast := withVelocity defaultState {| vx := 300; vy := 0; vz := 0 |} in
  let m := newFlightDynamicsModel defaultParams fast DefaultFdmConfig in
  let fullThrottle := {| elevator := 0; ailerons := 0; rudder := 0; throttle := 1 |} in
  update m (Finite 0) fullThrottle = Some m
  /\ update m (Finite 1e-6) fullThrottle = Some m
  /\ speedOf m = 300
  /\ ~ (speedOf m <= 250).
Proof.
  intros fast m fullThrottle.
  assert (Hspeed : speedOf m = 300).
  { unfold speedOf, m, fast. cbn. unfold magnitude. cbn. apply hypot3_axis. lra. }
  split; [| split; [| split]].
  - unfold update. cbn [isFinite negb leZero orb].
    destruct (Rle_dec 0 0); [reflexivity | lra].
  - unfold update. cbn [isFinite negb leZero orb finiteValue].
    destruct (Rle_dec 1e-6 0); [lra |].
    rewrite (Rmin_left 1e-6 0.25) by lra.
    rewrite whileRemaining_done by lra. cbn [option_map].
    now rewrite withState_state.
  - exact Hspeed.
  - rewrite Hspeed. lra.
Qed.

(** C4 (amended): every run of [update] calls returns and, when the speed is
    at most 250 m/s before it, the speed is at most 250 m/s after it, for every
    control input and every number of calls; a single call with a finite
    [dtSeconds] above [1e-6] leaves the speed at most 250 m/s whatever it was
    before; and whenever the velocity integration of a substep produces a speed
    above 250 m/s, the velocity kept is that velocity times the positive factor
    [250 / speed], of magnitude exactly 250. *)
Theorem speed_capped_by_update
    (m : FlightDynamicsModel) (calls : list (JsNumber * ControlInputs)) :
  (exists m', updates m calls = Some m'
              /\ (speedOf m <= 250 -> speedOf m' <= 250))
  /\ (forall dtSeconds inputs, 1e-6 < dtSeconds ->
        exists m', update m (Finite dtSeconds) inputs = Some m' /\ speedOf m' <= 250)
  /\ (forall ps dt rBodyToEnu forceBody st,
        let v1 := integratedVelocity ps dt rBodyToEnu forceBody st in
        let v2 := velocityEnuMetersPerSec
                    (integrateTranslation ps dt rBodyToEnu forceBody st) in
        250 < magnitude v1 ->
        v2 = {| vx := vx v1 * (1 / magnitude v1) * 250;
                vy := vy v1 * (1 / magnitude v1) * 250;
                vz := vz v1 * (1 / magnitude v1) * 250 |}
        /\ 0 < 1 / magnitude v1 * 250
        /\ magnitude v2 = 250).
Proof.
  split; [| split].
  - revert m. induction calls as [| [dt inputs] rest IH]; intros m.
    + exists m. split; [reflexivity | auto].
    + destruct (update_speed m dt inputs) as [m1 [Hupd [Hkeep _]]].
      destruct (IH m1) as [m' [Hrest Hkeep']].
      exists m'. cbn [updates]. rewrite Hupd. split; [exact Hrest |].
      unfold maxSpeed in *. auto.
  - intros dtSeconds inputs Hbig.
    destruct (update_speed m (Finite dtSeconds) inputs) as [m' [Hupd [_ Hcap]]].
    exists m'. split; [exact Hupd |]. now apply (Hcap dtSeconds).
  - intros ps dt rBodyToEnu forceBody st v1 v2 Hbig.
    assert (Hv2 : v2 = scale (normalize v1) maxSpeed).
    { unfold v2. rewrite integrateTranslation_velocity. cbv zeta. fold v1.
      destruct (Rgt_dec (magnitude v1) maxSpeed) as [| Hn]; [reflexivity |].
      unfold maxSpeed in Hn. lra. }
    destruct (rescaled_to_cap v1 Hbig) as [Heq Hmag].
    rewrite Hv2. split; [exact Heq |]. split; [| exact Hmag].
    apply Rmult_lt_0_compat; [| lra]. apply Rdiv_lt_0_compat; lra.
Qed.

Lemma speed_capped_by_update_witness :
  let m := newFlightDynamicsModel defaultParams defaultState DefaultFdmConfig in
  let fullThrottle := {| elevator := 0; ailerons := 0; rudder := 0; throttle := 1 |} in
  (exists m', updates m [(Finite 0.25, fullThrottle); (Finite 0.25, fullThrottle)] = Some m'
              /\ speedOf m' <= 250)
  /\ (exists m', update m (Finite 0.25) fullThrottle = Some m' /\ speedOf m' <= 250).
Proof.
  intros m fullThrottle.
  destruct (speed_capped_by_update m
              [(Finite 0.25, fullThrottle); (Finite 0.25, fullThrottle)])
    as [[m' [Hrun Hkeep]] [Hone _]].
  split.
  - exists m'. split; [exact Hrun |]. apply Hkeep.
    unfold speedOf, m. cbn. unfold magnitude. cbn. rewrite hypot3_axis; lra.
  - apply Hone. lra.
Defined.

(** ** Level attitude with the control surfaces centred *)

Lemma vector3_eq (a b : Vector3) :
  vx a = vx b -> vy a = vy b -> vz a = vz b -> a = b.
Proof. destruct a, b; simpl; intros -> -> ->; reflexivity. Qed.

Lemma quaternion_eq (a b : Quaternion) :
  qx a = qx b -> qy a = qy b -> qz a = qz b -> qw a = qw b -> a = b.
Proof. destruct a, b; simpl; intros -> -> -> ->; reflexivity. Qed.

Lemma atan2_zero_front (x : R) : 0 < x -> atan2 0 x = 0.
Proof.
  intros Hx. unfold atan2. destruct (Rlt_dec 0 x); [| contradiction].
  replace (0 / x) with 0 by (field; lra). apply atan_0.
Qed.

Lemma atan2_front (y x : R) : 0 < x -> atan2 y x = atan (y / x).
Proof. intros Hx. unfold atan2. destruct (Rlt_dec 0 x); [reflexivity | contradiction]. Qed.

Lemma quaternionNormalize_identity :
  quaternionNormalize identityQuaternion = identityQuaternion.
Proof.
  unfold quaternionNormalize, identityQuaternion; cbn [qx qy qz qw].
  assert (H1 : hypot4 0 0 0 1 = 1).
  { unfold hypot4. replace (0 * 0 + 0 * 0 + 0 * 0 + 1 * 1) with 1 by ring. apply sqrt_1. }
  rewrite H1. destruct (Req_dec_T 1 0); [lra |].
  apply quaternion_eq; cbn [qx qy qz qw]; field.
Qed.

Lemma integrateOrientation_at_rest (pRate qRate rRate dt : R) :
  pRate = 0 -> qRate = 0 -> rRate = 0 ->
  integrateOrientation identityQuaternion pRate qRate rRate dt = identityQuaternion.
Proof.
  intros -> -> ->. unfold integrateOrientation. cbv zeta.
  transitivity (quaternionNormalize identityQuaternion);
    [| apply quaternionNormalize_identity].
  f_equal.
  apply quaternion_eq; unfold quaternionMultiply, identityQuaternion;
    cbn [qx qy qz qw]; ring.
Qed.

Lemma yawPitchRoll_identity :
  roll (yawPitchRollFromQuaternion identityQuaternion) = 0.
Proof.
  unfold yawPitchRollFromQuaternion, matrixFromQuaternion, identityQuaternion, at_.
  cbn [roll qx qy qz qw nth].
  replace (2 * (0 * 0 + 1 * 0)) with 0 by ring.
  apply atan2_zero_front. lra.
Qed.

Lemma rotate_by_identity (v : Vector3) :
  multiplyMatrixVector3 (matrixFromQuaternion identityQuaternion) v = v.
Proof.
  apply vector3_eq;
    unfold multiplyMatrixVector3, matrixFromQuaternion, identityQuaternion, at_;
    cbn [vx vy vz qx qy qz qw nth]; ring.
Qed.

Lemma rotate_back_by_identity (v : Vector3) :
  multiplyMatrixVector3 (transpose3 (matrixFromQuaternion identityQuaternion)) v = v.
Proof.
  apply vector3_eq;
    unfold multiplyMatrixVector3, transpose3, matrixFromQuaternion, identityQuaternion, at_;
    cbn [vx vy vz qx qy qz qw nth]; ring.
Qed.

(** With elevator, ailerons and rudder at zero, a level aircraft stays level
    through the attitude part of a substep. *)
Lemma integrateAttitude_level
    (cfg : FdmConfig) (inputs : ControlInputs) (dt : R) (st : AircraftState) :
  elevator inputs = 0 -> ailerons inputs = 0 -> rudder inputs = 0 ->
  rollRad st = 0 -> orientation st = identityQuaternion ->
  let st1 := integrateAttitude cfg inputs dt st in
  orientation st1 = identityQuaternion
  /\ rollRad st1 = 0
  /\ velocityEnuMetersPerSec st1 = velocityEnuMetersPerSec st
  /\ positionEnuMeters st1 = positionEnuMeters st.
Proof.
  intros He Ha Hr Hroll Hq. cbv zeta.
  assert (Ho : orientation (integrateAttitude cfg inputs dt st) = identityQuaternion).
  { unfold integrateAttitude. cbv zeta. cbn [orientation]. rewrite Hq.
    apply integrateOrientation_at_rest.
    - rewrite Ha. ring.
    - rewrite He. ring.
    - rewrite Hr, Hroll, sin_0. ring. }
  split; [exact Ho |]. split; [| split; reflexivity].
  unfold integrateAttitude in *. cbv zeta in *. cbn [orientation rollRad] in *.
  rewrite Ho. apply yawPitchRoll_identity.
Qed.

(** A call with [dtSeconds] between the loop threshold and [maxStep] is one
    substep of that size. *)
Lemma update_single_substep
    (m : FlightDynamicsModel) (dtSeconds : R) (inputs : ControlInputs) :
  1e-6 < dtSeconds <= 0.02 ->
  update m (Finite dtSeconds) inputs
  = Some (withState m (substep (params m) (config m) inputs dtSeconds (state m))).
Proof.
  intros [Hlo Hhi]. unfold update. cbn [isFinite negb leZero orb finiteValue].
  destruct (Rle_dec dtSeconds 0); [lra |].
  rewrite (Rmin_left dtSeconds 0.25) by lra.
  change loopFuel with (S 12). rewrite whileRemaining_pass by exact Hlo.
  unfold maxStep. rewrite (Rmin_right 0.02 dtSeconds) by exact Hhi.
  rewrite whileRemaining_done by lra. reflexivity.
Qed.

(** ** Out-of-range controls *)

Lemma whileRemaining_ext {St : Type} (body1 body2 : R -> St -> St) :
  (forall dt s, body1 dt s = body2 dt s) ->
  forall fuel remaining s,
    whileRemaining body1 fuel remaining s = whileRemaining body2 fuel remaining s.
Proof.
  intros Hext. induction fuel as [| fuel IH]; intros remaining s; simpl.
  - reflexivity.
  - destruct (Rgt_dec remaining 1e-6); [| reflexivity]. now rewrite Hext, IH.
Qed.

(** The substep reads the controls through the three surface deflections as
    they are and through the clamped throttle. *)
Lemma substep_reads_controls
    (ps : AircraftParameters) (cfg : FdmConfig) (c1 c2 : ControlInputs)
    (dt : R) (st : AircraftState) :
  elevator c1 = elevator c2 -> ailerons c1 = ailerons c2 -> rudder c1 = rudder c2 ->
  clamp (throttle c1) 0 1 = clamp (throttle c2) 0 1 ->
  substep ps cfg c1 dt st = substep ps cfg c2 dt st.
Proof.
  intros He Ha Hr Ht.
  unfold substep, integrateAttitude, bodyForce. cbv zeta.
  now rewrite He, Ha, Hr, Ht.
Qed.


(** C5, the code at an input with an out-of-range aileron: at 55 m/s, one
    20 ms update with [ailerons = 2] commands a roll rate of [2 * PI * 0.6]
    rad/s, twice the [PI * 0.6] rad/s commanded with the clamped controls
    ([ailerons = 1]); both calls return, with different states.  Only the
    throttle goes through [clamp] in [update]. *)
Theorem update_roll_command_not_clamped :
  let m := newFlightDynamicsModel defaultParams cruiseState DefaultFdmConfig in
  let hardOver := {| elevator := 0; ailerons := 2; rudder := 0; throttle := 0.75 |} in
  exists m1 m2,
    update m (Finite 0.02) hardOver = Some m1
    /\ update m (Finite 0.02) (clampedControls hardOver) = Some m2
    /\ p (angularRatesRadPerSec (state m1)) = 2 * (PI * 0.6)
    /\ p (angularRatesRadPerSec (state m2)) = PI * 0.6
    /\ m1 <> m2.
Proof.
  intros m hardOver.
  assert (Hfactor : clamp (magnitude (velocityEnuMetersPerSec (state m)) / 50) 0 1 = 1).
  { unfold m, cruiseState, magnitude.
    cbn [newFlightDynamicsModel state withOrientation withVelocity
         velocityEnuMetersPerSec vx vy vz].
    rewrite hypot3_axis by lra. apply clamp_above; lra. }
  assert (Hclamped : ailerons (clampedControls hardOver) = 1).
  { unfold clampedControls, hardOver. cbn [ailerons]. apply clamp_above; lra. }
  assert (Hp : forall c,
             p (angularRatesRadPerSec
                  (substep (params m) (config m) c 0.02 (state m)))
             = ailerons c * (PI * 0.6)).
  { intros c. unfold substep, integrateTranslation, integrateAttitude. cbv zeta.
    cbn [angularRatesRadPerSec p]. rewrite Hfactor.
    unfold m. cbn [newFlightDynamicsModel config DefaultFdmConfig
                   maxRollRateRadPerSec rollRateGain]. ring. }
  eexists. eexists.
  split; [apply update_single_substep; lra |].
  split; [apply update_single_substep; lra |].
  cbn [withState state]. rewrite !Hp, Hclamped.
  split; [reflexivity |]. split; [ring |].
  intros Heq.
  apply (f_equal (fun m' => p (angularRatesRadPerSec (state m')))) in Heq.
  cbn [withState state] in Heq.
  rewrite !Hp, Hclamped in Heq. cbn [hardOver ailerons] in Heq.
  pose proof PI_RGT_0. lra.
Qed.

(** ** The force in the body frame *)

Lemma bodyForce_by_parts
    (ps : AircraftParameters) (cfg : FdmConfig) (inputs : ControlInputs) (vBody : Vector3) :
  bodyForce ps cfg inputs vBody
  = add
      (add
         (add (scale {| vx := 1; vy := 0; vz := 0 |}
                 (maxThrustN ps * clamp (throttle inputs) 0 1))
              (scale (liftDirectionBody vBody) (liftNewtonsAt ps cfg vBody)))
         (scale (dragDirectionBody vBody) (dragNewtonsAt ps cfg vBody)))
      {| vx := 0; vy := sideForceNewtonsAt ps vBody; vz := 0 |}.
Proof. reflexivity. Qed.

Lemma bodyForce_components
    (ps : AircraftParameters) (cfg : FdmConfig) (inputs : ControlInputs) (vBody : Vector3) :
  vx (bodyForce ps cfg inputs vBody)
  = maxThrustN ps * clamp (throttle inputs) 0 1
    + vx (liftDirectionBody vBody) * liftNewtonsAt ps cfg vBody
    + vx (dragDirectionBody vBody) * dragNewtonsAt ps cfg vBody
  /\ vy (bodyForce ps cfg inputs vBody)
     = vy (liftDirectionBody vBody) * liftNewtonsAt ps cfg vBody
       + vy (dragDirectionBody vBody) * dragNewtonsAt ps cfg vBody
       + sideForceNewtonsAt ps vBody
  /\ vz (bodyForce ps cfg inputs vBody)
     = vz (liftDirectionBody vBody) * liftNewtonsAt ps cfg vBody
       + vz (dragDirectionBody vBody) * dragNewtonsAt ps cfg vBody.
Proof.
  rewrite bodyForce_by_parts. unfold add, scale. cbn [vx vy vz].
  repeat split; ring.
Qed.

(** * Further properties of the code *)

(** ** Vectors, quaternions and rotation matrices *)

(** X2: [cross a b] is orthogonal to both [a] and [b], swapping the arguments
    negates it, and [cross a a] is the zero vector. *)
Theorem cross_orthogonal_antisymmetric (a b : Vector3) :
  dot (cross a b) a = 0
  /\ dot (cross a b) b = 0
  /\ cross b a = scale (cross a b) (-1)
  /\ cross a a = {| vx := 0; vy := 0; vz := 0 |}.
Proof.
  unfold dot, cross, scale; cbn [vx vy vz].
  split; [ring |]. split; [ring |].
  split; apply vector3_eq; cbn [vx vy vz]; ring.
Qed.

Lemma magnitude_sqr (v : Vector3) : magnitude v * magnitude v = dot v v.
Proof. unfold magnitude, dot. apply hypot3_sqr. Qed.

Lemma magnitude_zero_iff (v : Vector3) :
  magnitude v = 0 <-> v = {| vx := 0; vy := 0; vz := 0 |}.
Proof.
  split.
  - intros H. pose proof (magnitude_sqr v) as Hs. rewrite H in Hs. unfold dot in Hs.
    apply vector3_eq; cbn [vx vy vz]; nra.
  - intros ->. unfold magnitude. cbn [vx vy vz]. apply hypot3_axis. lra.
Qed.

(** X1: [normalize] returns a vector of magnitude 1 when the magnitude of its
    argument is above [1e-6], and the zero vector otherwise. *)
Theorem normalize_unit_or_zero (v : Vector3) :
  (magnitude v > 1e-6 -> magnitude (normalize v) = 1)
  /\ (magnitude v <= 1e-6 -> normalize v = {| vx := 0; vy := 0; vz := 0 |}).
Proof.
  split.
  - intros Hbig. rewrite normalize_large by exact Hbig.
    rewrite magnitude_scale.
    + field. lra.
    + apply Rlt_le, Rdiv_lt_0_compat; lra.
  - intros Hsmall. unfold normalize. cbv zeta.
    destruct (Rgt_dec (magnitude v) 1e-6); [lra | reflexivity].
Qed.

Lemma normalize_unit_or_zero_witness :
  magnitude (normalize {| vx := 3; vy := 0; vz := 0 |}) = 1
  /\ normalize {| vx := 0; vy := 0; vz := 0 |} = {| vx := 0; vy := 0; vz := 0 |}.
Proof.
  split.
  - apply (normalize_unit_or_zero {| vx := 3; vy := 0; vz := 0 |}).
    unfold magnitude. cbn [vx vy vz]. rewrite hypot3_axis; lra.
  - apply (normalize_unit_or_zero {| vx := 0; vy := 0; vz := 0 |}).
    unfold magnitude. cbn [vx vy vz]. rewrite hypot3_axis; lra.
Defined.


(** X4: for a unit quaternion the matrix of [matrixFromQuaternion] is
    orthonormal: [transpose3] of it is its inverse on either side, which is what
    [update] relies on for the ENU-to-body transform, and multiplying by it
    keeps the magnitude of a vector. *)
Theorem rotation_orthonormal (a : Quaternion) (v : Vector3) :
  quaternionMagnitude a = 1 ->
  multiplyMatrixVector3 (transpose3 (matrixFromQuaternion a))
    (multiplyMatrixVector3 (matrixFromQuaternion a) v) = v
  /\ multiplyMatrixVector3 (matrixFromQuaternion a)
       (multiplyMatrixVector3 (transpose3 (matrixFromQuaternion a)) v) = v
  /\ magnitude (multiplyMatrixVector3 (matrixFromQuaternion a) v) = magnitude v.
Proof.
  intros Hunit.
  assert (Hn : qx a * qx a + qy a * qy a + qz a * qz a + qw a * qw a = 1).
  { rewrite <- hypot4_sqr. unfold quaternionMagnitude in Hunit. rewrite Hunit. ring. }
  destruct a as [x y z w]; destruct v as [v1 v2 v3]; cbn [qx qy qz qw] in Hn.
  split; [| split].
  - apply vector3_eq;
      unfold multiplyMatrixVector3, transpose3, matrixFromQuaternion, at_;
      cbn [vx vy vz qx qy qz qw nth]; nsatz.
  - apply vector3_eq;
      unfold multiplyMatrixVector3, transpose3, matrixFromQuaternion, at_;
      cbn [vx vy vz qx qy qz qw nth]; nsatz.
  - unfold magnitude, hypot3. f_equal.
    unfold multiplyMatrixVector3, matrixFromQuaternion, at_;
      cbn [vx vy vz qx qy qz qw nth]. nsatz.
Qed.

Lemma identityQuaternion_unit : quaternionMagnitude identityQuaternion = 1.
Proof.
  unfold quaternionMagnitude, identityQuaternion, hypot4. cbn [qx qy qz qw].
  replace (0 * 0 + 0 * 0 + 0 * 0 + 1 * 1) with 1 by ring. apply sqrt_1.
Qed.

Lemma rotation_orthonormal_witness :
  let v := {| vx := 1; vy := 2; vz := 3 |} in
  multiplyMatrixVector3 (transpose3 (matrixFromQuaternion identityQuaternion))
    (multiplyMatrixVector3 (matrixFromQuaternion identityQuaternion) v) = v.
Proof.
  intros v.
  exact (proj1 (rotation_orthonormal identityQuaternion v identityQuaternion_unit)).
Defined.


(** X5: [quaternionMultiply] is associative, the identity quaternion is
    neutral on both sides, and the magnitude of a product is the product of the
    magnitudes. *)
Theorem quaternionMultiply_monoid (a b c : Quaternion) :
  quaternionMultiply (quaternionMultiply a b) c
  = quaternionMultiply a (quaternionMultiply b c)
  /\ quaternionMultiply identityQuaternion a = a
  /\ quaternionMultiply a identityQuaternion = a
  /\ quaternionMagnitude (quaternionMultiply a b)
     = quaternionMagnitude a * quaternionMagnitude b.
Proof.
  split; [| split; [| split]].
  - apply quaternion_eq; unfold quaternionMultiply; cbn [qx qy qz qw]; ring.
  - apply quaternion_eq; unfold quaternionMultiply, identityQuaternion;
      cbn [qx qy qz qw]; ring.
  - apply quaternion_eq; unfold quaternionMultiply, identityQuaternion;
      cbn [qx qy qz qw]; ring.
  - unfold quaternionMagnitude, hypot4, quaternionMultiply; cbn [qx qy qz qw].
    rewrite <- sqrt_mult_alt by nra. f_equal. ring.
Qed.

Lemma half_angle (a : R) :
  cos a = cos (a * 0.5) * cos (a * 0.5) - sin (a * 0.5) * sin (a * 0.5)
  /\ sin a = 2 * sin (a * 0.5) * cos (a * 0.5).
Proof.
  pose proof (cos_2a (a * 0.5)) as Hc. pose proof (sin_2a (a * 0.5)) as Hs.
  replace (2 * (a * 0.5)) with a in Hc, Hs by lra.
  rewrite Hc, Hs. split; ring.
Qed.

Lemma matrixFromQuaternion_of_euler (yaw0 pitch0 roll0 : R) :
  matrixFromQuaternion (quaternionFromYawPitchRoll yaw0 pitch0 roll0)
  = bodyToEnuMatrix yaw0 pitch0 roll0.
Proof.
  unfold matrixFromQuaternion, quaternionFromYawPitchRoll, bodyToEnuMatrix.
  cbv zeta. cbn [qx qy qz qw].
  destruct (half_angle yaw0) as [Hcy Hsy].
  destruct (half_angle pitch0) as [Hcp Hsp].
  destruct (half_angle roll0) as [Hcr Hsr].
  rewrite Hcy, Hsy, Hcp, Hsp, Hcr, Hsr.
  pose proof (sin2_cos2 (yaw0 * 0.5)) as Hy.
  pose proof (sin2_cos2 (pitch0 * 0.5)) as Hp.
  pose proof (sin2_cos2 (roll0 * 0.5)) as Hr.
  unfold Rsqr in *.
  set (cy := cos (yaw0 * 0.5)) in *. set (sy := sin (yaw0 * 0.5)) in *.
  set (cp := cos (pitch0 * 0.5)) in *. set (sp := sin (pitch0 * 0.5)) in *.
  set (cr := cos (roll0 * 0.5)) in *. set (sr := sin (roll0 * 0.5)) in *.
  repeat (f_equal; [nsatz |]). f_equal. nsatz.
Qed.

(** X6: the rotation matrix of the quaternion that [quaternionFromYawPitchRoll]
    builds is the matrix that [bodyToEnuMatrix] builds from the same yaw, pitch
    and roll: the two follow the same ZYX convention. *)
Theorem euler_matrix_agrees_with_quaternion (yaw0 pitch0 roll0 : R) :
  matrixFromQuaternion (quaternionFromYawPitchRoll yaw0 pitch0 roll0)
  = bodyToEnuMatrix yaw0 pitch0 roll0.
Proof. apply matrixFromQuaternion_of_euler. Qed.


Lemma PI_between : 3 < PI <= 4.
Proof. split; [pose proof PI2_3_2; lra | apply PI_4]. Qed.

Lemma hypot3_below (a b c k : R) :
  0 <= k -> a * a + b * b + c * c <= k * k -> hypot3 a b c <= k.
Proof.
  intros Hk Hsq. pose proof (hypot3_nonneg a b c) as H0.
  pose proof (hypot3_sqr a b c) as H2. nra.
Qed.

(** ** Euler angles *)







(** ** Coefficients, and a substep without airflow *)

Lemma clamp_cases (value lo hi : R) :
  lo <= hi ->
  (value <= lo /\ clamp value lo hi = lo)
  \/ (lo <= value <= hi /\ clamp value lo hi = value)
  \/ (hi <= value /\ clamp value lo hi = hi).
Proof.
  intros H. destruct (Rle_dec value lo) as [H1 | H1].
  - left. split; [exact H1 | now apply clamp_below].
  - destruct (Rle_dec value hi) as [H2 | H2].
    + right. left. split; [lra | apply clamp_inside; lra].
    + right. right. split; [lra | apply clamp_above; lra].
Qed.

(** X11: for a stall angle and a slope that are not negative,
    [calculateLiftCoefficient] is odd in the angle of attack, does not decrease
    when the angle of attack grows, and stays within
    [clSlopePerRad * stallAlphaRad] in absolute value. *)
Theorem calculateLiftCoefficient_odd_monotone_bounded
    (alpha beta clSlope stallAlpha : R) :
  0 <= stallAlpha -> 0 <= clSlope ->
  calculateLiftCoefficient (- alpha) clSlope stallAlpha
    = - calculateLiftCoefficient alpha clSlope stallAlpha
  /\ (alpha <= beta ->
        calculateLiftCoefficient alpha clSlope stallAlpha
        <= calculateLiftCoefficient beta clSlope stallAlpha)
  /\ Rabs (calculateLiftCoefficient alpha clSlope stallAlpha) <= clSlope * stallAlpha.
Proof.
  intros Hs Hk. unfold calculateLiftCoefficient. cbv zeta.
  assert (Hclamp : forall a, - stallAlpha <= clamp a (- stallAlpha) stallAlpha <= stallAlpha)
    by (intros a; apply clamp_bounds; lra).
  split; [| split].
  - assert (Hodd : clamp (- alpha) (- stallAlpha) stallAlpha
                   = - clamp alpha (- stallAlpha) stallAlpha).
    { destruct (clamp_cases alpha (- stallAlpha) stallAlpha) as [[? ->] | [[? ->] | [? ->]]];
        [lra | | |];
        destruct (clamp_cases (- alpha) (- stallAlpha) stallAlpha)
          as [[? ->] | [[? ->] | [? ->]]]; lra. }
    rewrite Hodd. ring.
  - intros Hle.
    assert (clamp alpha (- stallAlpha) stallAlpha <= clamp beta (- stallAlpha) stallAlpha).
    { destruct (clamp_cases alpha (- stallAlpha) stallAlpha) as [[? ->] | [[? ->] | [? ->]]];
        [lra | | |];
        destruct (clamp_cases beta (- stallAlpha) stallAlpha)
          as [[? ->] | [[? ->] | [? ->]]]; lra. }
    nra.
  - apply Rabs_le. specialize (Hclamp alpha). split; nra.
Qed.

Lemma calculateLiftCoefficient_odd_monotone_bounded_witness :
  calculateLiftCoefficient (- (0.1)) 5.7 0.25 = - calculateLiftCoefficient 0.1 5.7 0.25
  /\ calculateLiftCoefficient 0.1 5.7 0.25 <= calculateLiftCoefficient 0.4 5.7 0.25.
Proof.
  destruct (calculateLiftCoefficient_odd_monotone_bounded 0.1 0.4 5.7 0.25)
    as [Hodd [Hmono _]]; [lra | lra |].
  split; [exact Hodd | apply Hmono; lra].
Defined.


(** X12: for a positive aspect ratio and a positive Oswald efficiency,
    [calculateDragCoefficient] is at least the parasite drag coefficient, equal
    to it at zero lift, and the same for a lift coefficient and its opposite. *)
Theorem calculateDragCoefficient_floor (cd0 cl aspectRatio oswald : R) :
  0 < aspectRatio -> 0 < oswald ->
  cd0 <= calculateDragCoefficient cd0 cl aspectRatio oswald
  /\ calculateDragCoefficient cd0 (- cl) aspectRatio oswald
     = calculateDragCoefficient cd0 cl aspectRatio oswald
  /\ calculateDragCoefficient cd0 0 aspectRatio oswald = cd0.
Proof.
  intros Ha He. unfold calculateDragCoefficient. cbv zeta.
  assert (Hk : 0 < 1 / (PI * aspectRatio * oswald)).
  { apply Rdiv_lt_0_compat; [lra |]. pose proof PI_RGT_0.
    apply Rmult_lt_0_compat; [apply Rmult_lt_0_compat |]; assumption. }
  set (k := 1 / (PI * aspectRatio * oswald)) in *.
  split; [| split].
  - assert (0 <= k * cl * cl) by (replace (k * cl * cl) with (k * (cl * cl)) by ring; nra).
    lra.
  - ring.
  - ring.
Qed.

Lemma calculateDragCoefficient_floor_witness :
  0.03 <= calculateDragCoefficient 0.03 0.5 7 0.8.
Proof.
  apply (calculateDragCoefficient_floor 0.03 0.5 7 0.8); lra.
Defined.


Lemma quaternionNormalize_fixes_unit (a : Quaternion) :
  quaternionMagnitude a = 1 -> quaternionNormalize a = a.
Proof.
  intros Hunit. unfold quaternionNormalize. unfold quaternionMagnitude in Hunit.
  rewrite Hunit. destruct (Req_dec_T 1 0); [lra |].
  apply quaternion_eq; cbn [qx qy qz qw]; field.
Qed.

Lemma magnitude_at_rest : magnitude {| vx := 0; vy := 0; vz := 0 |} = 0.
Proof. unfold magnitude. cbn [vx vy vz]. apply hypot3_axis. lra. Qed.

(** X14: a substep that starts with zero velocity commands zero body rates
    whatever the controls (the speed factor is zero), and leaves a unit
    orientation quaternion as it was. *)
Theorem substep_at_rest_no_authority
    (ps : AircraftParameters) (cfg : FdmConfig) (inputs : ControlInputs)
    (dt : R) (st : AircraftState) :
  velocityEnuMetersPerSec st = {| vx := 0; vy := 0; vz := 0 |} ->
  angularRatesRadPerSec (substep ps cfg inputs dt st) = {| p := 0; q := 0; r := 0 |}
  /\ (quaternionMagnitude (orientation st) = 1 ->
      orientation (substep ps cfg inputs dt st) = orientation st).
Proof.
  intros Hv.
  assert (Hf : clamp (magnitude (velocityEnuMetersPerSec st) / 50) 0 1 = 0).
  { rewrite Hv, magnitude_at_rest. replace (0 / 50) with 0 by field.
    apply clamp_inside. lra. }
  unfold substep, integrateTranslation, integrateAttitude. cbv zeta.
  cbn [angularRatesRadPerSec orientation]. rewrite Hf. split.
  - f_equal; ring.
  - intros Hunit.
    transitivity (quaternionNormalize (orientation st));
      [| now apply quaternionNormalize_fixes_unit].
    unfold integrateOrientation. cbv zeta. f_equal.
    apply quaternion_eq; unfold quaternionMultiply; cbn [qx qy qz qw]; ring.
Qed.

Lemma substep_at_rest_no_authority_witness :
  let hardOver := {| elevator := 1; ailerons := 1; rudder := 1; throttle := 1 |} in
  angularRatesRadPerSec (substep defaultParams DefaultFdmConfig hardOver 0.02 defaultState)
  = {| p := 0; q := 0; r := 0 |}.
Proof.
  intros hardOver.
  exact (proj1 (substep_at_rest_no_authority defaultParams DefaultFdmConfig hardOver
                  0.02 defaultState eq_refl)).
Defined.


(** X13: [update] reads the throttle through [clamp (_, 0, 1)] only: a call
    with the throttle replaced by its clamped value gives the same result,
    whatever the request, the surfaces and the state. *)
Theorem update_throttle_clamped
    (m : FlightDynamicsModel) (dtSeconds : JsNumber) (inputs : ControlInputs) :
  update m dtSeconds
    {| elevator := elevator inputs; ailerons := ailerons inputs;
       rudder := rudder inputs; throttle := clamp (throttle inputs) 0 1 |}
  = update m dtSeconds inputs.
Proof.
  unfold update.
  destruct (negb (isFinite dtSeconds) || leZero dtSeconds); [reflexivity |].
  f_equal. apply whileRemaining_ext. intros dt s.
  apply substep_reads_controls; cbn [elevator ailerons rudder throttle];
    try reflexivity.
  apply clamp_idempotent. lra.
Qed.









(** ** Calls of [update] *)

Lemma whileRemaining_more_fuel {St : Type} (body : R -> St -> St) :
  forall fuel remaining s s',
    whileRemaining body fuel remaining s = Some s' ->
    whileRemaining body (S fuel) remaining s = Some s'.
Proof.
  induction fuel as [| fuel IH]; intros remaining s s' H.
  - simpl in H. destruct (Rgt_dec remaining 1e-6) as [Hbig | Hsmall]; [discriminate |].
    rewrite whileRemaining_done in * by lra. exact H.
  - destruct (Rle_dec remaining 1e-6) as [Hsmall | Hbig].
    + rewrite whileRemaining_done in * by lra. exact H.
    + rewrite whileRemaining_pass in H by lra.
      rewrite whileRemaining_pass by lra. now apply IH.
Qed.

(** X18: a request of 0.25 s or more acts exactly as a request of 0.25 s; and
    a request between 0.02 s (plus the loop threshold) and 0.25 s acts exactly
    as a call of 0.02 s followed by a call for the rest. *)
Theorem update_splits (m : FlightDynamicsModel) (dtSeconds : R) (inputs : ControlInputs) :
  (0.25 <= dtSeconds ->
     update m (Finite dtSeconds) inputs = update m (Finite 0.25) inputs)
  /\ (0.02 + 1e-6 < dtSeconds <= 0.25 ->
        update m (Finite dtSeconds) inputs
        = match update m (Finite 0.02) inputs with
          | Some m1 => update m1 (Finite (dtSeconds - 0.02)) inputs
          | None => None
          end).
Proof.
  split.
  - intros Hbig. unfold update. cbn [isFinite negb leZero orb finiteValue].
    destruct (Rle_dec dtSeconds 0); [lra |]. destruct (Rle_dec 0.25 0); [lra |].
    rewrite (Rmin_right dtSeconds 0.25) by lra.
    rewrite (Rmin_left 0.25 0.25) by lra. reflexivity.
  - intros [Hlo Hhi].
    rewrite (update_single_substep m 0.02 inputs) by lra.
    unfold update. cbn [isFinite negb leZero orb finiteValue withState params config state].
    destruct (Rle_dec dtSeconds 0); [lra |].
    destruct (Rle_dec (dtSeconds - 0.02) 0); [lra |].
    rewrite (Rmin_left dtSeconds 0.25) by lra.
    rewrite (Rmin_left (dtSeconds - 0.02) 0.25) by lra.
    change loopFuel with (S 12).
    rewrite (whileRemaining_pass _ 12 dtSeconds) by lra.
    unfold maxStep. rewrite (Rmin_left 0.02 dtSeconds) by lra.
    destruct (whileRemaining_trace (substep (params m) (config m) inputs) 12
                (dtSeconds - 0.02) []
                (substep (params m) (config m) inputs 0.02 (state m)))
      as [sizes [_ [Hrun _]]].
    { unfold maxStep. simpl. lra. }
    rewrite (whileRemaining_more_fuel _ _ _ _ _ Hrun). rewrite Hrun. reflexivity.
Qed.

Lemma update_splits_witness :
  let m := newFlightDynamicsModel defaultParams cruiseState DefaultFdmConfig in
  update m (Finite 1) neutralControls = update m (Finite 0.25) neutralControls
  /\ update m (Finite 0.1) neutralControls
     = match update m (Finite 0.02) neutralControls with
       | Some m1 => update m1 (Finite (0.1 - 0.02)) neutralControls
       | None => None
       end.
Proof.
  intros m. split.
  - apply (update_splits m 1 neutralControls). lra.
  - apply (update_splits m 0.1 neutralControls). lra.
Defined.





Lemma dot_cauchy_schwarz (a b : Vector3) : dot a b <= magnitude a * magnitude b.
Proof.
  pose proof (magnitude_nonneg a) as Ha. pose proof (magnitude_nonneg b) as Hb.
  pose proof (magnitude_sqr a) as Haa. pose proof (magnitude_sqr b) as Hbb.
  assert (Hcs : dot a b * dot a b <= dot a a * dot b b).
  { assert (Hid : dot a a * dot b b - dot a b * dot a b
                  = dot (cross a b) (cross a b))
      by (unfold dot, cross; cbn [vx vy vz]; ring).
    assert (0 <= dot (cross a b) (cross a b)).
    { rewrite <- magnitude_sqr. apply Rmult_le_pos; apply magnitude_nonneg. }
    lra. }
  rewrite <- Haa, <- Hbb in Hcs.
  set (A := magnitude a) in *. set (B := magnitude b) in *. set (d := dot a b) in *.
  destruct (Rle_dec d (A * B)) as [| Hgt]; [assumption |].
  exfalso. assert (H0 : 0 <= A * B) by (apply Rmult_le_pos; assumption).
  assert (Hlt : A * B < d) by lra.
  assert (Hsq : (A * B) * (A * B) < d * d).
  { apply Rle_lt_trans with (A * B * d).
    - apply Rmult_le_compat_l; lra.
    - apply Rmult_lt_compat_r; lra. }
  replace (A * A * (B * B)) with (A * B * (A * B)) in Hcs by ring. lra.
Qed.

Lemma magnitude_triangle (a b : Vector3) :
  magnitude (add a b) <= magnitude a + magnitude b.
Proof.
  pose proof (magnitude_nonneg a) as Ha. pose proof (magnitude_nonneg b) as Hb.
  pose proof (magnitude_nonneg (add a b)) as Hc.
  pose proof (magnitude_sqr a) as Haa. pose proof (magnitude_sqr b) as Hbb.
  pose proof (magnitude_sqr (add a b)) as Hcc.
  pose proof (dot_cauchy_schwarz a b) as Hcs.
  assert (Hexp : dot (add a b) (add a b) = dot a a + dot b b + 2 * dot a b)
    by (unfold dot, add; cbn [vx vy vz]; ring).
  rewrite Hexp in Hcc. rewrite <- Haa, <- Hbb in Hcc.
  set (A := magnitude a) in *. set (B := magnitude b) in *.
  set (C := magnitude (add a b)) in *. set (d := dot a b) in *.
  destruct (Rle_dec C (A + B)) as [| Hgt]; [assumption |].
  exfalso. assert (Hlt : A + B < C) by lra.
  assert (Hsq : (A + B) * (A + B) < C * C).
  { apply Rle_lt_trans with ((A + B) * C).
    - apply Rmult_le_compat_l; lra.
    - apply Rmult_lt_compat_r; lra. }
  replace ((A + B) * (A + B)) with (A * A + B * B + 2 * (A * B)) in Hsq by ring. lra.
Qed.

Lemma substep_position
    (ps : AircraftParameters) (cfg : FdmConfig) (inputs : ControlInputs)
    (dt : R) (st : AircraftState) :
  positionEnuMeters (substep ps cfg inputs dt st)
  = add (positionEnuMeters st)
        (scale (velocityEnuMetersPerSec (substep ps cfg inputs dt st)) dt).
Proof. reflexivity. Qed.

Lemma substep_displacement
    (ps : AircraftParameters) (cfg : FdmConfig) (inputs : ControlInputs)
    (dt : R) (st : AircraftState) :
  0 <= dt ->
  magnitude (add (positionEnuMeters (substep ps cfg inputs dt st))
                 (scale (positionEnuMeters st) (-1)))
  <= maxSpeed * dt.
Proof.
  intros Hdt.
  pose proof (substep_speed ps cfg inputs dt st) as Hv.
  assert (Heq : add (positionEnuMeters (substep ps cfg inputs dt st))
                    (scale (positionEnuMeters st) (-1))
                = scale (velocityEnuMetersPerSec (substep ps cfg inputs dt st)) dt).
  { rewrite substep_position.
    generalize (velocityEnuMetersPerSec (substep ps cfg inputs dt st)) as v.
    generalize (positionEnuMeters st) as pos. intros pos v.
    apply vector3_eq; unfold add, scale; cbn [vx vy vz]; ring. }
  rewrite Heq, magnitude_scale by exact Hdt.
  unfold maxSpeed in *. nra.
Qed.

Lemma runSubsteps_displacement
    (ps : AircraftParameters) (cfg : FdmConfig) (inputs : ControlInputs) :
  forall sizes st,
    Forall (fun d => 0 < d <= maxStep) sizes ->
    magnitude (add (positionEnuMeters (runSubsteps ps cfg inputs sizes st))
                   (scale (positionEnuMeters st) (-1)))
    <= maxSpeed * totalSeconds sizes.
Proof.
  induction sizes as [| d sizes IH]; intros st Hall.
  - unfold runSubsteps, totalSeconds. cbn [fold_left fold_right].
    replace (add (positionEnuMeters st) (scale (positionEnuMeters st) (-1)))
      with {| vx := 0; vy := 0; vz := 0 |}
      by (apply vector3_eq; unfold add, scale; cbn [vx vy vz]; ring).
    rewrite magnitude_at_rest. lra.
  - inversion Hall as [| d' sizes' Hd Hrest]; subst.
    change (runSubsteps ps cfg inputs (d :: sizes) st)
      with (runSubsteps ps cfg inputs sizes (substep ps cfg inputs d st)).
    change (totalSeconds (d :: sizes)) with (d + totalSeconds sizes).
    set (st1 := substep ps cfg inputs d st).
    replace (add (positionEnuMeters (runSubsteps ps cfg inputs sizes st1))
                 (scale (positionEnuMeters st) (-1)))
      with (add (add (positionEnuMeters (runSubsteps ps cfg inputs sizes st1))
                     (scale (positionEnuMeters st1) (-1)))
                (add (positionEnuMeters st1) (scale (positionEnuMeters st) (-1))))
      by (apply vector3_eq; unfold add, scale; cbn [vx vy vz]; ring).
    eapply Rle_trans; [apply magnitude_triangle |].
    specialize (IH st1 Hrest).
    pose proof (substep_displacement ps cfg inputs d st) as Hstep.
    fold st1 in Hstep. lra.
Qed.

(** X19: whatever the request, the state and the controls, one call of
    [update] returns and moves the position by at most 62.5 m: 250 m/s for the
    quarter second that the call lets through. *)
Theorem update_displacement_bounded
    (m : FlightDynamicsModel) (dtSeconds : JsNumber) (inputs : ControlInputs) :
  exists m',
    update m dtSeconds inputs = Some m'
    /\ magnitude (add (positionEnuMeters (state m'))
                      (scale (positionEnuMeters (state m)) (-1))) <= 62.5.
Proof.
  unfold update.
  destruct (negb (isFinite dtSeconds) || leZero dtSeconds) eqn:Hguard.
  - exists m. split; [reflexivity |].
    pose proof (runSubsteps_displacement (params m) (config m) inputs [] (state m)
                  (Forall_nil _)) as H.
    unfold runSubsteps, totalSeconds, maxSpeed in H. cbn [fold_left fold_right] in H. lra.
  - destruct dtSeconds as [x | | |]; cbn [isFinite negb leZero orb] in Hguard;
      try discriminate.
    destruct (Rle_dec x 0) as [| Hx]; [discriminate |]. cbn [finiteValue].
    destruct (whileRemaining_trace (substep (params m) (config m) inputs)
                loopFuel (Rmin x 0.25) [] (state m))
      as [sizes [_ [Hb [Hall [_ [Hpos _]]]]]].
    { apply loopFuel_covers. apply Rmin_r. }
    rewrite Hb. cbn [option_map]. eexists. split; [reflexivity |].
    cbn [withState state].
    pose proof (runSubsteps_displacement (params m) (config m) inputs sizes (state m) Hall)
      as Hrun.
    unfold runSubsteps in Hrun.
    assert (Hmin : 0 <= Rmin x 0.25 <= 0.25).
    { split; [| apply Rmin_r]. unfold Rmin. destruct (Rle_dec x 0.25); lra. }
    specialize (Hpos (proj1 Hmin)). unfold maxSpeed in Hrun. lra.
Qed.

Lemma magnitude_scale_abs (v : Vector3) (s : R) :
  magnitude (scale v s) = magnitude v * Rabs s.
Proof.
  unfold magnitude, scale, hypot3; cbn [vx vy vz].
  replace (vx v * s * (vx v * s) + vy v * s * (vy v * s) + vz v * s * (vz v * s))
    with ((vx v * vx v + vy v * vy v + vz v * vz v) * (s * s)) by ring.
  rewrite sqrt_mult_alt by nra. f_equal.
  replace (s * s) with (Rsqr s) by reflexivity. apply sqrt_Rsqr_abs.
Qed.

(** X3: [magnitude] is a norm: not negative, zero on the zero vector only,
    multiplied by [|s|] under [scale _ s], subadditive under [add], and its
    square is [dot v v]. *)
Theorem magnitude_is_a_norm (a b : Vector3) (s : R) :
  0 <= magnitude a
  /\ (magnitude a = 0 <-> a = {| vx := 0; vy := 0; vz := 0 |})
  /\ magnitude (scale a s) = magnitude a * Rabs s
  /\ magnitude (add a b) <= magnitude a + magnitude b
  /\ magnitude a * magnitude a = dot a a.
Proof.
  split; [apply magnitude_nonneg |]. split; [apply magnitude_zero_iff |].
  split; [apply magnitude_scale_abs |]. split; [apply magnitude_triangle |].
  apply magnitude_sqr.
Qed.

Lemma magnitude_is_a_norm_witness :
  magnitude {| vx := 0; vy := 0; vz := 0 |} = 0.
Proof.
  apply (proj2 (proj1 (proj2 (magnitude_is_a_norm
                                 {| vx := 0; vy := 0; vz := 0 |}
                                 {| vx := 0; vy := 0; vz := 0 |} 1)))).
  reflexivity.
Defined.


(** X10: on a matrix of nine entries [transpose3] is an involution, returns
    nine entries, and is the adjoint for [dot]:
    [dot (M v) w = dot v (transpose3 M w)]. *)
Theorem transpose3_involution_adjoint (m : Matrix3) (v w : Vector3) :
  List.length m = 9%nat ->
  transpose3 (transpose3 m) = m
  /\ List.length (transpose3 m) = 9%nat
  /\ dot (multiplyMatrixVector3 m v) w = dot v (multiplyMatrixVector3 (transpose3 m) w).
Proof.
  intros Hlen.
  do 9 (destruct m as [| ? m]; [discriminate |]).
  destruct m; [| discriminate].
  split; [reflexivity |]. split; [reflexivity |].
  unfold dot, multiplyMatrixVector3, transpose3, at_. cbn [nth vx vy vz]. ring.
Qed.

Lemma transpose3_involution_adjoint_witness :
  transpose3 (transpose3 [1; 2; 3; 4; 5; 6; 7; 8; 9]) = [1; 2; 3; 4; 5; 6; 7; 8; 9].
Proof.
  apply (transpose3_involution_adjoint [1; 2; 3; 4; 5; 6; 7; 8; 9]
           {| vx := 1; vy := 0; vz := 0 |} {| vx := 0; vy := 1; vz := 0 |}).
  reflexivity.
Defined.


(** X8: [quaternionNormalize] returns a unit quaternion for every argument:
    the identity for a quaternion of magnitude zero, the argument itself when it
    is a unit quaternion already; normalizing twice is normalizing once. *)
Theorem quaternionNormalize_total (a : Quaternion) :
  quaternionMagnitude (quaternionNormalize a) = 1
  /\ (quaternionMagnitude a = 0 -> quaternionNormalize a = identityQuaternion)
  /\ (quaternionMagnitude a = 1 -> quaternionNormalize a = a)
  /\ quaternionNormalize (quaternionNormalize a) = quaternionNormalize a.
Proof.
  split; [apply quaternionNormalize_unit |]. split; [| split].
  - intros Hz. unfold quaternionNormalize. unfold quaternionMagnitude in Hz.
    rewrite Hz. destruct (Req_dec_T 0 0); [reflexivity | lra].
  - apply quaternionNormalize_fixes_unit.
  - apply quaternionNormalize_fixes_unit. apply quaternionNormalize_unit.
Qed.

Lemma quaternionNormalize_total_witness :
  quaternionNormalize {| qx := 0; qy := 0; qz := 0; qw := 0 |} = identityQuaternion
  /\ quaternionNormalize identityQuaternion = identityQuaternion.
Proof.
  split.
  - apply (quaternionNormalize_total {| qx := 0; qy := 0; qz := 0; qw := 0 |}).
    unfold quaternionMagnitude, hypot4. cbn [qx qy qz qw].
    replace (0 * 0 + 0 * 0 + 0 * 0 + 0 * 0) with 0 by ring. apply sqrt_0.
  - apply (quaternionNormalize_total identityQuaternion).
    apply identityQuaternion_unit.
Defined.


(** X9: on a unit quaternion the explicit Euler step of
    [integrateOrientation] yields a quaternion of magnitude
    [sqrt (1 + (dt/2)^2 (p^2 + q^2 + r^2))], never below 1; the result is that
    quaternion divided by this factor, and with zero rates it is the
    quaternion that was given. *)
Theorem integrateOrientation_renormalizes (a : Quaternion) (pRate qRate rRate dt : R) :
  quaternionMagnitude a = 1 ->
  let dq := quaternionMultiply a {| qx := pRate; qy := qRate; qz := rRate; qw := 0 |} in
  let qn := {| qx := qx a + 0.5 * qx dq * dt;
               qy := qy a + 0.5 * qy dq * dt;
               qz := qz a + 0.5 * qz dq * dt;
               qw := qw a + 0.5 * qw dq * dt |} in
  let stretch := sqrt (1 + 0.25 * (dt * dt)
                             * (pRate * pRate + qRate * qRate + rRate * rRate)) in
  quaternionMagnitude qn = stretch
  /\ 1 <= stretch
  /\ integrateOrientation a pRate qRate rRate dt
     = {| qx := qx qn * (1 / stretch); qy := qy qn * (1 / stretch);
          qz := qz qn * (1 / stretch); qw := qw qn * (1 / stretch) |}
  /\ (pRate = 0 -> qRate = 0 -> rRate = 0 ->
      integrateOrientation a pRate qRate rRate dt = a).
Proof.
  intros Hunit. cbv zeta.
  assert (Hn : qx a * qx a + qy a * qy a + qz a * qz a + qw a * qw a = 1).
  { rewrite <- hypot4_sqr. unfold quaternionMagnitude in Hunit. rewrite Hunit. ring. }
  set (w2 := pRate * pRate + qRate * qRate + rRate * rRate).
  assert (Hw2 : 0 <= w2) by (unfold w2; nra).
  assert (Hdt2 : 0 <= dt * dt) by nra.
  assert (Hinside : 0 <= 0.25 * (dt * dt) * w2).
  { apply Rmult_le_pos; [lra | exact Hw2]. }
  assert (Hmag : quaternionMagnitude
                   {| qx := qx a + 0.5 * qx (quaternionMultiply a
                              {| qx := pRate; qy := qRate; qz := rRate; qw := 0 |}) * dt;
                      qy := qy a + 0.5 * qy (quaternionMultiply a
                              {| qx := pRate; qy := qRate; qz := rRate; qw := 0 |}) * dt;
                      qz := qz a + 0.5 * qz (quaternionMultiply a
                              {| qx := pRate; qy := qRate; qz := rRate; qw := 0 |}) * dt;
                      qw := qw a + 0.5 * qw (quaternionMultiply a
                              {| qx := pRate; qy := qRate; qz := rRate; qw := 0 |}) * dt |}
                 = sqrt (1 + 0.25 * (dt * dt) * w2)).
  { unfold quaternionMagnitude, hypot4, quaternionMultiply. cbn [qx qy qz qw].
    f_equal. unfold w2. destruct a as [x y z w]. cbn [qx qy qz qw] in *.
    replace 0.5 with (1 / 2) by lra. replace 0.25 with (1 / 4) by lra.
    match goal with |- ?lhs = _ =>
      replace lhs
        with ((x * x + y * y + z * z + w * w)
              * (1 + 1 / 4 * (dt * dt)
                     * (pRate * pRate + qRate * qRate + rRate * rRate))) by field
    end.
    rewrite Hn. ring. }
  assert (Hstretch : 1 <= sqrt (1 + 0.25 * (dt * dt) * w2)).
  { rewrite <- sqrt_1 at 1. apply sqrt_le_1_alt. lra. }
  split; [exact Hmag |]. split; [exact Hstretch |]. split.
  - unfold integrateOrientation. cbv zeta. unfold quaternionNormalize.
    unfold quaternionMagnitude in Hmag. cbn [qx qy qz qw] in *. rewrite Hmag.
    destruct (Req_dec_T (sqrt (1 + 0.25 * (dt * dt) * w2)) 0); [lra | reflexivity].
  - intros -> -> ->. unfold integrateOrientation. cbv zeta.
    transitivity (quaternionNormalize a); [| now apply quaternionNormalize_fixes_unit].
    f_equal. apply quaternion_eq; unfold quaternionMultiply; cbn [qx qy qz qw]; ring.
Qed.

Lemma integrateOrientation_renormalizes_witness :
  integrateOrientation identityQuaternion 0 0 0 0.02 = identityQuaternion
  /\ 1 <= sqrt (1 + 0.25 * (0.02 * 0.02) * (1 * 1 + 0 * 0 + 0 * 0)).
Proof.
  split.
  - apply (integrateOrientation_renormalizes identityQuaternion 0 0 0 0.02
             identityQuaternion_unit); reflexivity.
  - exact (proj1 (proj2 (integrateOrientation_renormalizes identityQuaternion 1 0 0 0.02
                           identityQuaternion_unit))).
Defined.


(** ** Free fall from rest, wings level, controls neutral *)

Lemma hypot3_vertical (w : R) : w <= 0 -> hypot3 0 0 w = - w.
Proof.
  intros Hw. unfold hypot3.
  replace (0 * 0 + 0 * 0 + w * w) with (- w * - w) by ring.
  apply sqrt_square. lra.
Qed.

Lemma hypot3_flip (a b c : R) : hypot3 (- a) (- b) (- c) = hypot3 a b c.
Proof. unfold hypot3. f_equal. ring. Qed.

Lemma hypot3_unit_up : hypot3 0 0 1 = 1.
Proof.
  unfold hypot3. replace (0 * 0 + 0 * 0 + 1 * 1) with 1 by ring. apply sqrt_1.
Qed.

Lemma hypot3_unit_front : hypot3 1 0 0 = 1.
Proof. apply hypot3_axis. lra. Qed.

Lemma hypot2_pos (a b : R) : 0 < a -> 0 < hypot2 a b.
Proof. intros Ha. unfold hypot2. apply sqrt_lt_R0. nra. Qed.

Section FreeFall.

Variables u w : R.
Hypothesis Hu : u <= 0.
Hypothesis Hw : w <= 0.

Let vBody : Vector3 := {| vx := u; vy := 0; vz := w |}.

Lemma falling_aeroVelocity : aeroVelocityBody vBody = {| vx := 0; vy := 0; vz := w |}.
Proof.
  unfold aeroVelocityBody, vBody. cbn [vx vy vz]. now rewrite Rmax_left.
Qed.

Lemma falling_aeroSpeed : aeroSpeed vBody = - w.
Proof.
  unfold aeroSpeed. rewrite falling_aeroVelocity. unfold magnitude. cbn [vx vy vz].
  now apply hypot3_vertical.
Qed.

Lemma falling_angleOfAttack :
  angleOfAttack vBody <= 0 /\ (w <= -0.1 -> angleOfAttack vBody < 0).
Proof.
  unfold angleOfAttack. cbv zeta. rewrite falling_aeroSpeed, falling_aeroVelocity.
  cbn [vx vy vz]. rewrite (Rmax_left 1e-3 0) by lra.
  destruct (Rlt_dec (- w) 0.1) as [Hslow | Hfast].
  - split; [lra | intros; lra].
  - rewrite atan2_front by lra.
    assert (Hneg : atan (w / 1e-3) < 0).
    { rewrite <- atan_0. apply atan_increasing.
      apply Rmult_lt_reg_r with 1e-3; [lra |]. field_simplify. lra. }
    split; [lra | intros; lra].
Qed.

Lemma falling_sideslip : sideslip vBody = 0.
Proof.
  unfold sideslip. cbv zeta. rewrite falling_aeroSpeed, falling_aeroVelocity.
  cbn [vx vy vz]. destruct (Rlt_dec (- w) 0.1); [reflexivity |].
  apply atan2_zero_front. apply hypot2_pos.
  rewrite (Rmax_left 1e-6 0); lra.
Qed.

Lemma falling_liftCoefficient :
  -1.9 <= liftCoefficientAt defaultParams DefaultFdmConfig vBody <= 0
  /\ (w <= -0.1 -> liftCoefficientAt defaultParams DefaultFdmConfig vBody < 0)
  /\ (- w < 0.1 -> liftCoefficientAt defaultParams DefaultFdmConfig vBody = 0).
Proof.
  unfold liftCoefficientAt, calculateLiftCoefficient. cbv zeta.
  cbn [defaultParams DefaultFdmConfig clSlopePerRad stallAlphaRad].
  destruct falling_angleOfAttack as [Hle Hlt].
  pose proof PI_between as [Hpi3 Hpi4].
  set (alpha := angleOfAttack vBody) in *.
  set (stall := 15 * (PI / 180)).
  assert (Hstall : 0 < stall <= 1 / 3) by (unfold stall; lra).
  assert (Hc : - stall <= clamp alpha (- stall) stall <= 0
               /\ (alpha < 0 -> clamp alpha (- stall) stall < 0)).
  { unfold clamp, Rmax, Rmin.
    destruct (Rle_dec stall alpha); destruct (Rle_dec (- stall) _); lra. }
  destruct Hc as [[Hc1 Hc2] Hc3].
  split; [lra |]. split.
  - intros Hfast. specialize (Hc3 (Hlt Hfast)). lra.
  - intros Hslow. unfold alpha, angleOfAttack. cbv zeta. rewrite falling_aeroSpeed.
    destruct (Rlt_dec (- w) 0.1); [| contradiction].
    rewrite clamp_inside by lra. ring.
Qed.

Lemma falling_dragCoefficient :
  0.03 <= dragCoefficientAt defaultParams DefaultFdmConfig vBody <= 0.24.
Proof.
  unfold dragCoefficientAt, calculateDragCoefficient. cbv zeta.
  destruct falling_liftCoefficient as [[Hcl1 Hcl2] _].
  set (cl := liftCoefficientAt defaultParams DefaultFdmConfig vBody) in *.
  cbn [defaultParams parasiteDragCoefficient wingSpanM wingAreaM2 oswaldEfficiency].
  pose proof PI_between as [Hpi3 Hpi4].
  set (k := 1 / (PI * (11.0 * 11.0 / 16.2) * 0.8)).
  assert (Hk : 0 < k <= 0.056).
  { unfold k. split.
    - apply Rdiv_lt_0_compat; lra.
    - apply Rmult_le_reg_r with (PI * (11.0 * 11.0 / 16.2) * 0.8); [lra |].
      field_simplify; lra. }
  assert (Hsq : 0 <= cl * cl <= 3.61) by nra.
  assert (Hprod : 0 <= k * cl * cl <= 0.056 * 3.61) by nra.
  lra.
Qed.

Lemma falling_liftNewtons :
  -18.9 * (w * w) <= liftNewtonsAt defaultParams DefaultFdmConfig vBody <= 0
  /\ (w <= -0.1 -> liftNewtonsAt defaultParams DefaultFdmConfig vBody < 0)
  /\ (- w < 0.1 -> liftNewtonsAt defaultParams DefaultFdmConfig vBody = 0).
Proof.
  unfold liftNewtonsAt, calculateLiftNewtons. rewrite falling_aeroSpeed.
  destruct falling_liftCoefficient as [[Hcl1 Hcl2] [Hcl3 Hcl4]].
  set (cl := liftCoefficientAt defaultParams DefaultFdmConfig vBody) in *.
  unfold AIR_DENSITY_KG_M3. cbn [defaultParams wingAreaM2].
  assert (Hww : 0 <= w * w) by nra.
  split; [split; nra |]. split.
  - intros Hfast. specialize (Hcl3 Hfast). assert (0.01 <= w * w) by nra. nra.
  - intros Hslow. rewrite (Hcl4 Hslow). ring.
Qed.

Lemma falling_dragNewtons :
  0.297675 * (w * w) <= dragNewtonsAt defaultParams DefaultFdmConfig vBody <= 2.4 * (w * w).
Proof.
  unfold dragNewtonsAt, calculateDragNewtons. rewrite falling_aeroSpeed.
  destruct falling_dragCoefficient as [Hcd1 Hcd2].
  set (cd := dragCoefficientAt defaultParams DefaultFdmConfig vBody) in *.
  unfold AIR_DENSITY_KG_M3. cbn [defaultParams wingAreaM2].
  assert (Hww : 0 <= w * w) by nra.
  split; nra.
Qed.

Lemma falling_sideForce : sideForceNewtonsAt defaultParams vBody = 0.
Proof. unfold sideForceNewtonsAt. rewrite falling_sideslip. ring. Qed.

(** Below 1 mm/s of airflow the lift direction is body-up and the lift is
    zero; otherwise the airflow comes from below and the lift direction is
    body-forward. *)
Lemma falling_liftDirection :
  (- w < 0.1 /\ liftNewtonsAt defaultParams DefaultFdmConfig vBody = 0)
  \/ liftDirectionBody vBody = {| vx := 1; vy := 0; vz := 0 |}.
Proof.
  destruct (Rlt_dec (- w) 1e-3) as [Hstill | Hmoving].
  - left. split; [lra |]. apply falling_liftNewtons. lra.
  - right. unfold liftDirectionBody. cbv zeta. rewrite falling_aeroSpeed.
    destruct (Rlt_dec (- w) 1e-3); [contradiction |].
    rewrite falling_aeroVelocity.
    assert (Hm : magnitude {| vx := 0; vy := 0; vz := w |} = - w).
    { unfold magnitude. cbn [vx vy vz]. now apply hypot3_vertical. }
    rewrite (normalize_large {| vx := 0; vy := 0; vz := w |}) by (rewrite Hm; lra).
    rewrite Hm.
    assert (Hcross : cross (scale {| vx := 0; vy := 0; vz := w |} (1 / - w))
                       {| vx := 0; vy := 1; vz := 0 |}
                     = {| vx := 1; vy := 0; vz := 0 |}).
    { apply vector3_eq; unfold cross, scale; cbn [vx vy vz]; field; lra. }
    rewrite Hcross.
    assert (Hone : magnitude {| vx := 1; vy := 0; vz := 0 |} = 1).
    { unfold magnitude. cbn [vx vy vz]. apply hypot3_unit_front. }
    rewrite normalize_large by (rewrite Hone; lra). rewrite Hone.
    apply vector3_eq; unfold scale; cbn [vx vy vz]; field.
Qed.

Lemma falling_lift_components :
  vx (liftDirectionBody vBody) * liftNewtonsAt defaultParams DefaultFdmConfig vBody
  = liftNewtonsAt defaultParams DefaultFdmConfig vBody
  /\ vy (liftDirectionBody vBody) * liftNewtonsAt defaultParams DefaultFdmConfig vBody = 0
  /\ vz (liftDirectionBody vBody) * liftNewtonsAt defaultParams DefaultFdmConfig vBody = 0.
Proof.
  destruct falling_liftDirection as [[_ Hzero] | Hdir].
  - rewrite Hzero. repeat split; ring.
  - rewrite Hdir. cbn [vx vy vz]. repeat split; ring.
Qed.

Lemma falling_speed_facts :
  0 <= magnitude vBody /\ - w <= magnitude vBody /\ - u <= magnitude vBody
  /\ magnitude vBody <= - u + - w
  /\ magnitude vBody * magnitude vBody = u * u + w * w.
Proof.
  pose proof (magnitude_nonneg vBody) as H0.
  pose proof (hypot3_sqr u 0 w) as Hsq.
  unfold magnitude, vBody in *. cbn [vx vy vz] in *.
  set (mv := hypot3 u 0 w) in *.
  repeat split; nra.
Qed.

Lemma falling_dragDirection :
  (magnitude vBody < 1e-3 /\ dragDirectionBody vBody = {| vx := -1; vy := 0; vz := 0 |})
  \/ (1e-3 <= magnitude vBody
      /\ dragDirectionBody vBody
         = {| vx := - u * (1 / magnitude vBody);
              vy := 0;
              vz := - w * (1 / magnitude vBody) |}).
Proof.
  unfold dragDirectionBody.
  destruct (Rlt_dec (magnitude vBody) 1e-3) as [Hstill | Hmoving].
  - left. now split.
  - right. split; [lra |].
    assert (Hm : magnitude {| vx := - vx vBody; vy := - vy vBody; vz := - vz vBody |}
                 = magnitude vBody).
    { unfold magnitude. cbn [vx vy vz]. apply hypot3_flip. }
    rewrite normalize_large by (rewrite Hm; lra). rewrite Hm.
    apply vector3_eq; unfold scale, vBody; cbn [vx vy vz]; ring.
Qed.

(** The force on the falling aircraft: no side force, a vertical part that is
    drag alone, and a forward part made of the (negative) lift and of drag. *)
Lemma falling_bodyForce :
  -10 <= w ->
  let force := bodyForce defaultParams DefaultFdmConfig neutralControls vBody in
  vy force = 0
  /\ vx force <= - u * (2.4 * - w)
  /\ (w <= -0.1 -> vx force < - u * (2.4 * - w))
  /\ -21.3 * (w * w) <= vx force
  /\ 0 <= vz force <= 2.4 * (w * w)
  /\ (1e-3 <= magnitude vBody -> 0.297675 * (w * w) * - w <= vz force * magnitude vBody).
Proof.
  intros Hw10. cbv zeta.
  destruct (bodyForce_components defaultParams DefaultFdmConfig neutralControls vBody)
    as [Hfx [Hfy Hfz]].
  rewrite Hfx, Hfy, Hfz. clear Hfx Hfy Hfz.
  destruct falling_lift_components as [Hlx [Hly Hlz]]. rewrite Hlx, Hly, Hlz.
  rewrite falling_sideForce.
  destruct falling_liftNewtons as [[Hl1 Hl2] [Hl3 _]].
  destruct falling_dragNewtons as [Hd1 Hd2].
  destruct falling_speed_facts as [Hm0 [Hmw [Hmu [Hmsum Hmsq]]]].
  pose proof falling_dragDirection as Hdrag.
  set (liftN := liftNewtonsAt defaultParams DefaultFdmConfig vBody) in *.
  set (dragN := dragNewtonsAt defaultParams DefaultFdmConfig vBody) in *.
  set (mv := magnitude vBody) in *.
  assert (Hthrust : maxThrustN defaultParams * clamp (throttle neutralControls) 0 1 = 0).
  { cbn [neutralControls throttle]. rewrite clamp_inside by lra. ring. }
  rewrite Hthrust.
  assert (Hww : 0 <= w * w) by nra.
  destruct Hdrag as [[Hstill Hdir] | [Hmoving Hdir]]; rewrite Hdir; cbn [vx vy vz].
  - split; [ring |]. split; [nra |]. split; [intros Hfast; specialize (Hl3 Hfast); nra |].
    split; [nra |]. split; [split; nra |]. intros Hbig. lra.
  - set (inv := 1 / mv).
    assert (Hinv : 0 < inv) by (apply Rdiv_lt_0_compat; lra).
    assert (Hone : inv * mv = 1) by (unfold inv; field; lra).
    assert (Hwr : 0 <= - w * inv <= 1) by nra.
    assert (Hur : 0 <= - u * inv <= 1) by nra.
    assert (Hdr : 0 <= dragN * inv <= 2.4 * - w).
    { split; [nra |].
      apply Rle_trans with (2.4 * (w * w) * inv); [nra |].
      replace (2.4 * (w * w) * inv) with (2.4 * - w * (- w * inv)) by ring. nra. }
    assert (Hdx : 0 <= - u * inv * dragN <= - u * (2.4 * - w)).
    { replace (- u * inv * dragN) with (- u * (dragN * inv)) by ring. split; nra. }
    assert (Hdz : 0 <= - w * inv * dragN <= dragN).
    { replace (- w * inv * dragN) with (- w * inv * dragN) by ring. split; nra. }
    split; [ring |]. split; [lra |].
    split; [intros Hfast; specialize (Hl3 Hfast); lra |].
    split; [nra |]. split; [split; lra |].
    intros _. replace ((0 + - w * inv * dragN) * mv) with (- w * dragN * (inv * mv)) by ring.
    rewrite Hone. nra.
Qed.

End FreeFall.

Lemma fall_backward_drift (u w dt fx : R) :
  u <= 0 -> -10 <= w <= 0 -> 0 < dt <= 0.02 ->
  fx <= - u * (2.4 * - w) ->
  u + fx * (1 / 1110) * dt <= 0
  /\ (fx < - u * (2.4 * - w) -> u + fx * (1 / 1110) * dt < 0).
Proof.
  intros Hu Hw Hdt Hfx.
  set (k := 1 / 1110 * dt).
  assert (Hk : 0 < k <= 0.00002) by (unfold k; lra).
  assert (Hc : 0 <= 2.4 * - w * k <= 0.0005).
  { split; [apply Rmult_le_pos; lra |].
    apply Rle_trans with (24 * k); [apply Rmult_le_compat_r; lra | lra]. }
  assert (Hbound : u + - u * (2.4 * - w) * k <= 0).
  { replace (u + - u * (2.4 * - w) * k) with (- ((- u) * (1 - 2.4 * - w * k))) by ring.
    assert (0 <= - u * (1 - 2.4 * - w * k)) by (apply Rmult_le_pos; lra). lra. }
  replace (u + fx * (1 / 1110) * dt) with (u + fx * k) by (unfold k; ring).
  split.
  - assert (fx * k <= - u * (2.4 * - w) * k) by (apply Rmult_le_compat_r; lra). lra.
  - intros Hlt.
    assert (fx * k < - u * (2.4 * - w) * k) by (apply Rmult_lt_compat_r; lra). lra.
Qed.

Lemma fall_drift_bounded (t dt u w fx : R) :
  -8 * t <= u -> 0 <= w * w <= 97 -> 0 < dt <= 0.02 ->
  -21.3 * (w * w) <= fx ->
  -8 * (t + dt) <= u + fx * (1 / 1110) * dt.
Proof.
  intros Hu Hww Hdt Hfx.
  assert (Hf : -2070 <= fx) by lra.
  assert (Hd : -2070 * dt <= fx * dt) by (apply Rmult_le_compat_r; lra).
  replace (fx * (1 / 1110) * dt) with (fx * dt / 1110) by field. lra.
Qed.

Lemma fall_sink_rate (t dt w fz : R) :
  0 <= t -> - (9.80665) * t <= w <= -9 * t -> 0 <= w * w <= 97 -> 0 < dt <= 0.02 ->
  0 <= fz <= 2.4 * (w * w) ->
  - (9.80665) * (t + dt) <= w + (fz / 1110 - 9.80665) * dt <= -9 * (t + dt).
Proof.
  intros Ht Hw Hww Hdt Hfz.
  assert (Hf : 0 <= fz / 1110 <= 0.22) by lra.
  assert (H1 : 0 <= fz / 1110 * dt) by (apply Rmult_le_pos; lra).
  assert (H2 : fz / 1110 * dt <= 0.22 * dt) by (apply Rmult_le_compat_r; lra).
  replace ((fz / 1110 - 9.80665) * dt) with (fz / 1110 * dt - 9.80665 * dt) by ring.
  lra.
Qed.

Lemma fall_drag_floor (t u w fz mv : R) :
  0.5 <= t -> t <= 1 -> -8 * t <= u <= 0 -> w <= -9 * t ->
  mv <= - u + - w -> 0 <= mv ->
  0.297675 * (w * w) * - w <= fz * mv ->
  0.002 <= fz / 1110.
Proof.
  intros Ht Ht1 Hu Hw Hmv Hmv0 Hfz.
  assert (Hw45 : 4.5 <= - w) by lra.
  assert (Hmvw : mv <= 17 / 9 * - w) by lra.
  assert (Hww : 20.25 <= w * w).
  { replace (w * w) with (- w * - w) by ring.
    apply Rle_trans with (4.5 * - w); [lra |]. apply Rmult_le_compat_r; lra. }
  assert (Hpos : 0 <= fz).
  { destruct (Rle_dec 0 fz) as [| Hneg]; [assumption |]. exfalso.
    assert (fz * mv <= 0).
    { replace (fz * mv) with (- (- fz * mv)) by ring.
      assert (0 <= - fz * mv) by (apply Rmult_le_pos; lra). lra. }
    assert (0 < 0.297675 * (w * w) * - w).
    { apply Rmult_lt_0_compat; [lra | lra]. }
    lra. }
  assert (Hchain : 0.297675 * (w * w) * - w <= fz * (17 / 9 * - w)).
  { apply Rle_trans with (fz * mv); [exact Hfz |]. apply Rmult_le_compat_l; lra. }
  assert (Hdiv : 0.297675 * (w * w) <= fz * (17 / 9)).
  { apply Rmult_le_reg_r with (- w); [lra |].
    replace (fz * (17 / 9) * - w) with (fz * (17 / 9 * - w)) by ring. exact Hchain. }
  lra.
Qed.

Lemma square_below (w b : R) : - b <= w <= 0 -> 0 <= w * w <= b * b.
Proof.
  intros [H1 H2]. replace (w * w) with (- w * - w) by ring. split.
  - apply Rmult_le_pos; lra.
  - apply Rmult_le_compat; lra.
Qed.

(** One substep of the fall. *)
Lemma falling_substep (t dt : R) (st : AircraftState) :
  0 <= t -> 0 < dt <= 0.02 -> t + dt <= 1 ->
  Falling t st ->
  Falling (t + dt) (substep defaultParams DefaultFdmConfig neutralControls dt st).
Proof.
  intros Ht Hdt Hend [Hq [Hroll [Hvy [[Hu1 Hu2] [Hu3 [[Hw1 Hw2] Hw3]]]]]].
  destruct (integrateAttitude_level DefaultFdmConfig neutralControls dt st
              eq_refl eq_refl eq_refl Hroll Hq) as [Ho1 [Hr1 [Hv1 _]]].
  unfold GRAVITY_M_S2 in *.
  set (u := vx (velocityEnuMetersPerSec st)) in *.
  set (w := vz (velocityEnuMetersPerSec st)) in *.
  assert (Hv : velocityEnuMetersPerSec st = {| vx := u; vy := 0; vz := w |}).
  { apply vector3_eq; cbn [vx vy vz]; auto. }
  assert (Hwneg : w <= 0) by lra.
  assert (Hwlo : - (9.80665) <= w).
  { apply Rle_trans with (- (9.80665) * t); [| exact Hw1].
    assert (9.80665 * t <= 9.80665 * 1) by (apply Rmult_le_compat_l; lra). lra. }
  assert (Hww : 0 <= w * w <= 97).
  { pose proof (square_below w 9.80665 (conj Hwlo Hwneg)). lra. }
  assert (Hw10 : -10 <= w) by lra.
  pose proof (falling_bodyForce u w Hu2 Hwneg Hw10) as Hforce. cbv zeta in Hforce.
  pose proof (falling_speed_facts u w Hu2 Hwneg) as Hspeed. cbv zeta in Hspeed.
  unfold substep. cbv zeta.
  set (st1 := integrateAttitude DefaultFdmConfig neutralControls dt st) in *.
  rewrite Ho1, rotate_back_by_identity, Hv1, Hv.
  set (force := bodyForce defaultParams DefaultFdmConfig neutralControls
                  {| vx := u; vy := 0; vz := w |}) in *.
  set (mv := magnitude {| vx := u; vy := 0; vz := w |}) in *.
  destruct Hforce as [Hfy [Hfx1 [Hfx2 [Hfx3 [[Hfz1 Hfz2] Hfz3]]]]].
  destruct Hspeed as [Hm0 [Hmw [Hmu [Hmsum Hmsq]]]].
  set (v1 := integratedVelocity defaultParams dt
               (matrixFromQuaternion identityQuaternion) force st1).
  assert (Hv1x : vx v1 = u + vx force * (1 / 1110) * dt).
  { unfold v1, integratedVelocity. cbv zeta. rewrite rotate_by_identity, Hv1.
    unfold add, scale. cbn [vx vy vz defaultParams massKg]. fold u. ring. }
  assert (Hv1y : vy v1 = 0).
  { unfold v1, integratedVelocity. cbv zeta. rewrite rotate_by_identity, Hv1.
    unfold add, scale. cbn [vx vy vz defaultParams massKg]. rewrite Hfy, Hvy. ring. }
  assert (Hv1z : vz v1 = w + (vz force / 1110 - 9.80665) * dt).
  { unfold v1, integratedVelocity. cbv zeta. rewrite rotate_by_identity, Hv1.
    unfold add, scale, GRAVITY_M_S2. cbn [vx vy vz defaultParams massKg]. fold w. field. }
  assert (Hv1eq : integratedVelocity defaultParams dt
                    (matrixFromQuaternion identityQuaternion) force st1 = v1)
    by reflexivity.
  assert (Hrest : orientation st1 = identityQuaternion /\ rollRad st1 = 0)
    by (split; assumption).
  clearbody v1 force mv st1.
  destruct (fall_backward_drift u w dt (vx force) Hu2 (conj Hw10 Hwneg) Hdt Hfx1)
    as [Hx1 Hx1s].
  pose proof (fall_drift_bounded t dt u w (vx force) Hu1 Hww Hdt Hfx3) as Hx2.
  pose proof (fall_sink_rate t dt w (vz force) Ht (conj Hw1 Hw2) Hww Hdt
                (conj Hfz1 Hfz2)) as [Hz1 Hz2].
  rewrite <- Hv1x in Hx1, Hx1s, Hx2. rewrite <- Hv1z in Hz1, Hz2.
  assert (Hx3 : 0.04 <= t + dt -> vx v1 < 0).
  { intros Hlate. apply Hx1s. apply Hfx2. lra. }
  assert (Hz3 : - (9.80665) * (t + dt) + 0.002 * Rmax 0 (t + dt - 0.52) <= vz v1).
  { destruct (Rle_dec 0.5 t) as [Hlate | Hearly].
    - assert (Hmv : 1e-3 <= mv) by lra.
      pose proof (fall_drag_floor t u w (vz force) mv Hlate ltac:(lra) (conj Hu1 Hu2)
                    Hw2 Hmsum Hm0 (Hfz3 Hmv)) as Hdrag.
      assert (Hgain : 0.002 * dt <= vz force / 1110 * dt)
        by (apply Rmult_le_compat_r; lra).
      rewrite Hv1z.
      replace ((vz force / 1110 - 9.80665) * dt)
        with (vz force / 1110 * dt - 9.80665 * dt) by ring.
      unfold Rmax in *.
      destruct (Rle_dec 0 (t - 0.52)); destruct (Rle_dec 0 (t + dt - 0.52)); lra.
    - rewrite (Rmax_left 0 (t + dt - 0.52)) by lra.
      rewrite (Rmax_left 0 (t - 0.52)) in Hw3 by lra. lra. }
  assert (Hslow : magnitude v1 <= maxSpeed).
  { unfold magnitude, maxSpeed. apply hypot3_below; [lra |]. rewrite Hv1y.
    assert (0 <= vx v1 * vx v1 <= 8 * 8).
    { apply square_below. split; [| lra].
      assert (8 * (t + dt) <= 8 * 1) by (apply Rmult_le_compat_l; lra). lra. }
    assert (0 <= vz v1 * vz v1 <= 10 * 10).
    { apply square_below. split; [| lra].
      assert (9.80665 * (t + dt) <= 9.80665 * 1) by (apply Rmult_le_compat_l; lra). lra. }
    lra. }
  assert (Hvel : velocityEnuMetersPerSec
                   (integrateTranslation defaultParams dt
                      (matrixFromQuaternion identityQuaternion) force st1) = v1).
  { rewrite integrateTranslation_velocity. cbv zeta. rewrite Hv1eq.
    destruct (Rgt_dec (magnitude v1) maxSpeed); [lra | reflexivity]. }
  unfold Falling. rewrite Hvel. unfold GRAVITY_M_S2.
  cbn [integrateTranslation orientation rollRad].
  destruct Hrest as [Ho Hr]. rewrite Hv1y.
  repeat split; try assumption; lra.
Qed.

Lemma totalSeconds_nonneg (sizes : list R) :
  Forall (fun d => 0 < d <= maxStep) sizes -> 0 <= totalSeconds sizes.
Proof.
  induction 1 as [| d sizes Hd _ IH]; unfold totalSeconds in *; cbn [fold_right]; lra.
Qed.

Lemma falling_run :
  forall sizes t st,
    0 <= t -> Forall (fun d => 0 < d <= maxStep) sizes ->
    t + totalSeconds sizes <= 1 ->
    Falling t st ->
    Falling (t + totalSeconds sizes)
      (runSubsteps defaultParams DefaultFdmConfig neutralControls sizes st).
Proof.
  induction sizes as [| d sizes IH]; intros t st Ht Hall Hend Hfall.
  - unfold runSubsteps, totalSeconds. cbn [fold_left fold_right].
    now replace (t + 0) with t by ring.
  - inversion Hall as [| d' sizes' Hd Hrest]; subst.
    pose proof (totalSeconds_nonneg sizes Hrest) as Hpos.
    change (totalSeconds (d :: sizes)) with (d + totalSeconds sizes) in *.
    change (runSubsteps defaultParams DefaultFdmConfig neutralControls (d :: sizes) st)
      with (runSubsteps defaultParams DefaultFdmConfig neutralControls sizes
              (substep defaultParams DefaultFdmConfig neutralControls d st)).
    replace (t + (d + totalSeconds sizes)) with (t + d + totalSeconds sizes) by ring.
    unfold maxStep in Hd.
    apply IH; [lra | exact Hrest | lra |].
    apply falling_substep; [exact Ht | exact Hd | lra | exact Hfall].
Qed.

Lemma quaternionFromYawPitchRoll_level :
  quaternionFromYawPitchRoll 0 0 0 = identityQuaternion.
Proof.
  unfold quaternionFromYawPitchRoll, identityQuaternion. cbv zeta.
  replace (0 * 0.5) with 0 by ring. rewrite cos_0, sin_0.
  apply quaternion_eq; cbn [qx qy qz qw]; ring.
Qed.

Lemma falling_update (m : FlightDynamicsModel) (t dtSeconds : R) :
  params m = defaultParams -> config m = DefaultFdmConfig ->
  0 <= t -> 0 < dtSeconds -> t + Rmin dtSeconds 0.25 <= 1 ->
  Falling t (state m) ->
  exists m' elapsed,
    update m (Finite dtSeconds) neutralControls = Some m'
    /\ params m' = defaultParams /\ config m' = DefaultFdmConfig
    /\ Rmin dtSeconds 0.25 - 1e-6 <= elapsed <= Rmin dtSeconds 0.25
    /\ 0 <= elapsed
    /\ Falling (t + elapsed) (state m').
Proof.
  intros Hps Hcfg Ht Hdt Hend Hfall.
  unfold update. cbn [isFinite negb leZero orb finiteValue].
  destruct (Rle_dec dtSeconds 0); [lra |].
  assert (Hmin : 0 <= Rmin dtSeconds 0.25 <= 0.25).
  { split; [| apply Rmin_r]. unfold Rmin. destruct (Rle_dec dtSeconds 0.25); lra. }
  destruct (whileRemaining_trace (substep (params m) (config m) neutralControls)
              loopFuel (Rmin dtSeconds 0.25) [] (state m))
    as [sizes [_ [Hb [Hall [Hres [Hpos _]]]]]].
  { apply loopFuel_covers. apply Rmin_r. }
  specialize (Hpos (proj1 Hmin)).
  rewrite Hb. cbn [option_map]. eexists. exists (totalSeconds sizes).
  split; [reflexivity |]. cbn [withState params config state].
  split; [exact Hps |]. split; [exact Hcfg |]. split; [lra |].
  split; [now apply totalSeconds_nonneg |].
  rewrite Hps, Hcfg. apply falling_run; [exact Ht | exact Hall | lra | exact Hfall].
Qed.

Lemma falling_updates :
  forall requests m t,
    params m = defaultParams -> config m = DefaultFdmConfig ->
    0 <= t -> Forall (fun x => 0 < x) requests ->
    t + cappedSeconds requests <= 1 ->
    Falling t (state m) ->
    exists m' elapsed,
      updates m (neutralCalls requests) = Some m'
      /\ cappedSeconds requests - 1e-6 * INR (List.length requests) <= elapsed
         <= cappedSeconds requests
      /\ Falling (t + elapsed) (state m').
Proof.
  induction requests as [| x requests IH]; intros m t Hps Hcfg Ht Hall Hend Hfall.
  - exists m, 0. cbn [neutralCalls map updates cappedSeconds fold_right List.length INR].
    split; [reflexivity |]. split; [lra |]. now replace (t + 0) with t by ring.
  - inversion Hall as [| x' requests' Hx Hrest]; subst.
    change (cappedSeconds (x :: requests)) with (Rmin x 0.25 + cappedSeconds requests) in *.
    assert (Hcap : 0 <= cappedSeconds requests).
    { clear - Hrest. induction Hrest as [| y l Hy _ IHl]; unfold cappedSeconds in *;
        cbn [fold_right]; [lra |].
      assert (0 <= Rmin y 0.25) by (unfold Rmin; destruct (Rle_dec y 0.25); lra). lra. }
    destruct (falling_update m t x Hps Hcfg Ht Hx ltac:(lra) Hfall)
      as [m1 [e1 [Hupd [Hps1 [Hcfg1 [He1 [He1pos Hfall1]]]]]]].
    destruct (IH m1 (t + e1) Hps1 Hcfg1 ltac:(lra) Hrest ltac:(lra) Hfall1)
      as [m' [e2 [Hrun [He2 Hfall2]]]].
    exists m', (e1 + e2).
    change (neutralCalls (x :: requests))
      with ((Finite x, neutralControls) :: neutralCalls requests).
    cbn [updates]. rewrite Hupd. split; [exact Hrun |].
    change (List.length (x :: requests)) with (S (List.length requests)). rewrite S_INR.
    split; [lra |]. now replace (t + (e1 + e2)) with (t + e1 + e2) by ring.
Qed.

(** X20: the default aircraft dropped from rest, wings level, controls
    neutral, through any run of [update] calls with positive finite requests
    that covers at most the first second ([elapsed] is the simulated time, the
    capped requests less at most [1e-6] s a call): every call returns, the
    aircraft stays level with no lateral velocity, it sinks at between
    [9 elapsed] and [g elapsed] m/s, it drifts backwards (strictly once 0.04 s
    have elapsed) because the lift computed on the airflow from below points
    along the body X axis, and from 0.52 s on drag keeps the sink rate below
    [g elapsed] by at least 2 mm/s per second. *)
Theorem free_fall_first_second (requests : list R) :
  Forall (fun x => 0 < x) requests ->
  cappedSeconds requests <= 1 ->
  exists m' elapsed,
    updates (newFlightDynamicsModel defaultParams defaultState DefaultFdmConfig)
      (neutralCalls requests) = Some m'
    /\ cappedSeconds requests - 1e-6 * INR (List.length requests) <= elapsed
       <= cappedSeconds requests
    /\ orientation (state m') = identityQuaternion
    /\ vy (velocityEnuMetersPerSec (state m')) = 0
    /\ -8 * elapsed <= vx (velocityEnuMetersPerSec (state m')) <= 0
    /\ (0.04 <= elapsed -> vx (velocityEnuMetersPerSec (state m')) < 0)
    /\ - GRAVITY_M_S2 * elapsed <= vz (velocityEnuMetersPerSec (state m'))
       <= -9 * elapsed
    /\ (0.52 <= elapsed ->
        - GRAVITY_M_S2 * elapsed + 0.002 * (elapsed - 0.52)
        <= vz (velocityEnuMetersPerSec (state m'))).
Proof.
  intros Hall Hend.
  set (m0 := newFlightDynamicsModel defaultParams defaultState DefaultFdmConfig).
  assert (Hfall0 : Falling 0 (state m0)).
  { unfold Falling, m0. cbn [newFlightDynamicsModel state withOrientation orientation
      rollRad velocityEnuMetersPerSec defaultState yawRad pitchRad vx vy vz].
    rewrite quaternionFromYawPitchRoll_level. unfold GRAVITY_M_S2.
    rewrite (Rmax_left 0 (0 - 0.52)) by lra.
    repeat split; try reflexivity; lra. }
  destruct (falling_updates requests m0 0 eq_refl eq_refl ltac:(lra) Hall ltac:(lra) Hfall0)
    as [m' [elapsed [Hrun [Hel Hfall]]]].
  exists m', elapsed. replace (0 + elapsed) with elapsed in Hfall by ring.
  destruct Hfall as [Hq [_ [Hvy [Hvx [Hvx' [Hvz Hvz']]]]]].
  split; [exact Hrun |]. split; [exact Hel |]. split; [exact Hq |].
  split; [exact Hvy |]. split; [exact Hvx |]. split; [exact Hvx' |].
  split; [exact Hvz |].
  intros Hlate. rewrite (Rmax_right 0 (elapsed - 0.52)) in Hvz' by lra. exact Hvz'.
Qed.

Lemma free_fall_first_second_witness :
  exists m' elapsed,
    updates (newFlightDynamicsModel defaultParams defaultState DefaultFdmConfig)
      (neutralCalls [0.25; 0.25; 0.25; 0.25]) = Some m'
    /\ 1 - 0.000004 <= elapsed <= 1
    /\ vx (velocityEnuMetersPerSec (state m')) < 0
    /\ - GRAVITY_M_S2 + 0.0009 <= vz (velocityEnuMetersPerSec (state m')).
Proof.
  assert (Hcap : cappedSeconds [0.25; 0.25; 0.25; 0.25] = 1).
  { unfold cappedSeconds. cbn [fold_right]. rewrite (Rmin_left 0.25 0.25) by lra. lra. }
  destruct (free_fall_first_second [0.25; 0.25; 0.25; 0.25])
    as [m' [elapsed [Hrun [Hel [_ [_ [_ [Hvx [_ Hvz]]]]]]]]].
  - repeat constructor; lra.
  - rewrite Hcap. lra.
  - rewrite Hcap in Hel. cbn [List.length INR] in Hel.
    exists m', elapsed. split; [exact Hrun |]. split; [lra |].
    split; [apply Hvx; lra |]. unfold GRAVITY_M_S2 in *.
    assert (H := Hvz ltac:(lra)). lra.
Defined.

(** ** The state bus *)

Module StateBusFacts.

Import StateBus.

Section Facts.

Context {T : Type}.

Lemma setHas_In (fn : nat) (s : list nat) : setHas fn s = true <-> In fn s.
Proof.
  unfold setHas. rewrite existsb_exists. split.
  - intros [g [Hin Heq]]. apply Nat.eqb_eq in Heq. now subst.
  - intros Hin. exists fn. split; [exact Hin | apply Nat.eqb_refl].
Qed.

Lemma setAdd_NoDup (fn : nat) (s : list nat) : NoDup s -> NoDup (setAdd fn s).
Proof.
  intros Hnd. unfold setAdd. destruct (setHas fn s) eqn:Hhas; [exact Hnd |].
  apply NoDup_app; [exact Hnd | repeat constructor; intros [] | ].
  intros x Hx [<- | []]. apply setHas_In in Hx. congruence.
Qed.

Lemma setAdd_In (fn g : nat) (s : list nat) : In g (setAdd fn s) <-> g = fn \/ In g s.
Proof.
  unfold setAdd. destruct (setHas fn s) eqn:Hhas.
  - apply setHas_In in Hhas. split; [auto |]. intros [-> | H]; assumption.
  - rewrite in_app_iff. cbn. intuition congruence.
Qed.

Lemma setDelete_In (fn g : nat) (s : list nat) : In g (setDelete fn s) <-> g <> fn /\ In g s.
Proof.
  unfold setDelete. rewrite filter_In. rewrite negb_true_iff, Nat.eqb_neq. intuition congruence.
Qed.

Lemma setDelete_NoDup (fn : nat) (s : list nat) : NoDup s -> NoDup (setDelete fn s).
Proof. intros H. unfold setDelete. now apply NoDup_filter. Qed.

Lemma calls_NoDup : forall (cs : list (BusCall T)) (b : Bus T), NoDup (subscribers b) -> NoDup (subscribers (fst (calls cs b))).
Proof.
  induction cs as [| c cs IH]; intros b Hnd; [exact Hnd |].
  cbn [calls]. destruct (call c b) as [b1 out1] eqn:Hc.
  specialize (IH b1). destruct (calls cs b1) as [b2 out2]. cbn [fst] in *.
  apply IH. destruct c; cbn [call subscribe unsubscribe publish] in Hc;
    injection Hc as <- _; cbn [subscribers];
    [now apply setAdd_NoDup | now apply setDelete_NoDup | exact Hnd].
Qed.

Lemma calls_last : forall (cs : list (BusCall T)) (b : Bus T), last_ (fst (calls cs b)) = lastPublished cs (last_ b).
Proof.
  induction cs as [| c cs IH]; intros b; [reflexivity |].
  cbn [calls]. destruct (call c b) as [b1 out1] eqn:Hc.
  specialize (IH b1). destruct (calls cs b1) as [b2 out2]. cbn [fst] in *.
  rewrite IH. destruct c; cbn [call subscribe unsubscribe publish] in Hc;
    injection Hc as <- _; reflexivity.
Qed.

Lemma calls_subscribers :
  forall (cs : list (BusCall T)) (b : Bus T) fn,
    In fn (subscribers (fst (calls cs b)))
    <-> subscribedAfter cs fn (setHas fn (subscribers b)) = true.
Proof.
  induction cs as [| c cs IH]; intros b fn.
  - cbn [calls fst subscribedAfter]. symmetry. apply setHas_In.
  - cbn [calls]. destruct (call c b) as [b1 out1] eqn:Hc.
    specialize (IH b1 fn). destruct (calls cs b1) as [b2 out2]. cbn [fst] in *.
    rewrite IH. clear IH.
    assert (Hstep : setHas fn (subscribers b1)
                    = match c with
                      | Subscribe g => if Nat.eqb fn g then true else setHas fn (subscribers b)
                      | Unsubscribe g => if Nat.eqb fn g then false else setHas fn (subscribers b)
                      | Publish _ => setHas fn (subscribers b)
                      end).
    { destruct c as [g | g | s]; cbn [call subscribe unsubscribe publish] in Hc;
        injection Hc as <- _; cbn [subscribers].
      - destruct (Nat.eqb fn g) eqn:Hfg.
        + apply Nat.eqb_eq in Hfg. subst g. apply setHas_In, setAdd_In. now left.
        + apply Nat.eqb_neq in Hfg.
          destruct (setHas fn (subscribers b)) eqn:Hb.
          * apply setHas_In, setAdd_In. right. now apply setHas_In.
          * apply not_true_is_false. intros H. apply setHas_In, setAdd_In in H.
            destruct H as [H | H]; [contradiction |].
            apply setHas_In in H. congruence.
      - destruct (Nat.eqb fn g) eqn:Hfg.
        + apply Nat.eqb_eq in Hfg. subst g. apply not_true_is_false. intros H.
          apply setHas_In, setDelete_In in H. now destruct H.
        + apply Nat.eqb_neq in Hfg.
          destruct (setHas fn (subscribers b)) eqn:Hb.
          * apply setHas_In, setDelete_In. split; [exact Hfg | now apply setHas_In].
          * apply not_true_is_false. intros H. apply setHas_In, setDelete_In in H.
            destruct H as [_ H]. apply setHas_In in H. congruence.
      - reflexivity. }
    rewrite Hstep. destruct c; reflexivity.
Qed.

(** X21: after any history of calls on a new bus, [publish] calls every
    function whose latest subscription has not been cancelled, each once and
    with the state published, and calls no other; [last] is then that state
    and the subscriptions are unchanged. *)
Theorem publish_reaches_current_subscribers (history : list (BusCall T)) (state : T) :
  let bus := fst (calls history newBus) in
  let (bus', delivered) := publish state bus in
  map snd delivered = map (fun _ => state) delivered
  /\ NoDup (map fst delivered)
  /\ (forall fn, In fn (map fst delivered) <-> subscribedAfter history fn false = true)
  /\ last_ bus' = Some state
  /\ subscribers bus' = subscribers bus.
Proof.
  cbv zeta. unfold publish.
  set (bus := fst (calls history newBus)).
  rewrite !map_map. cbn [fst snd]. rewrite map_id.
  split; [reflexivity |]. split.
  - apply calls_NoDup. constructor.
  - split; [| split; reflexivity].
    intros fn. unfold bus. rewrite calls_subscribers. reflexivity.
Qed.

(** X22: a function subscribed after any history of calls is called at once
    with the state published last, if there is one, and not called otherwise;
    it is subscribed afterwards and [last] is unchanged. *)
Theorem subscribe_replays_last (history : list (BusCall T)) (fn : nat) :
  let bus := fst (calls history newBus) in
  let (bus', delivered) := subscribe fn bus in
  delivered = match lastPublished history None with
              | Some s => [(fn, s)]
              | None => []
              end
  /\ In fn (subscribers bus')
  /\ last_ bus' = lastPublished history None.
Proof.
  cbv zeta. unfold subscribe. cbn [subscribers last_].
  rewrite calls_last. cbn [newBus last_].
  split; [reflexivity |]. split; [| reflexivity].
  apply setAdd_In. now left.
Qed.

(** X23: once the function returned by [subscribe] has run, no later call
    delivers anything to that subscriber as long as it does not subscribe
    again. *)
Theorem unsubscribe_stops_delivery
    (history later : list (BusCall T)) (fn : nat) :
  (forall g, In (Subscribe g) later -> g <> fn) ->
  let bus := unsubscribe fn (fst (calls history newBus)) in
  forall delivery, In delivery (snd (calls later bus)) -> fst delivery <> fn.
Proof.
  intros Hlater. cbv zeta.
  assert (Hgen : forall (cs : list (BusCall T)) (b : Bus T),
             (forall g, In (Subscribe g) cs -> g <> fn) ->
             ~ In fn (subscribers b) ->
             forall delivery, In delivery (snd (calls cs b)) -> fst delivery <> fn).
  { induction cs as [| c cs IH]; intros b Hcs Hnot delivery Hin; [contradiction |].
    cbn [calls] in Hin. destruct (call c b) as [b1 out1] eqn:Hc.
    specialize (IH b1). destruct (calls cs b1) as [b2 out2]. cbn [snd] in *.
    apply in_app_or in Hin.
    assert (Hcs' : forall g, In (Subscribe g) cs -> g <> fn)
      by (intros g Hg; apply Hcs; now right).
    destruct c as [g | g | s]; cbn [call subscribe unsubscribe publish] in Hc;
      injection Hc as <- <-.
    - assert (Hg : g <> fn) by (apply Hcs; now left).
      destruct Hin as [Hin | Hin].
      + destruct (last_ b); [| contradiction]. destruct Hin as [<- | []]. exact Hg.
      + apply (IH Hcs'); [| exact Hin]. cbn [subscribers]. rewrite setAdd_In.
        intros [H | H]; [congruence | contradiction].
    - destruct Hin as [[] | Hin].
      apply (IH Hcs'); [| exact Hin]. unfold unsubscribe. cbn [subscribers].
      rewrite setDelete_In. intros [_ H]. contradiction.
    - destruct Hin as [Hin | Hin].
      + apply in_map_iff in Hin. destruct Hin as [h [<- Hh]]. cbn [fst].
        intros ->. contradiction.
      + apply (IH Hcs'); [exact Hnot | exact Hin]. }
  apply Hgen; [exact Hlater |].
  unfold unsubscribe. cbn [subscribers]. intros H.
  apply setDelete_In in H. now destruct H.
Qed.


End Facts.

Lemma publish_reaches_current_subscribers_witness :
  In 2%nat (map fst (snd (publish 5%nat
                       (fst (calls [Subscribe 1%nat; Subscribe 2%nat; Unsubscribe 1%nat]
                               newBus))))).
Proof.
  pose proof (publish_reaches_current_subscribers
                [Subscribe 1%nat; Subscribe 2%nat; Unsubscribe 1%nat] 5%nat) as H.
  cbv zeta in H. destruct (publish 5%nat _) as [bus' delivered] eqn:Hp in H.
  rewrite Hp. cbn [snd]. destruct H as [_ [_ [H _]]]. apply H. reflexivity.
Defined.

Lemma unsubscribe_stops_delivery_witness :
  let later := [Publish 8%nat; Subscribe 2%nat; Publish 9%nat] in
  let bus := unsubscribe 1%nat (fst (calls [Subscribe 1%nat; Publish 7%nat] newBus)) in
  snd (calls later bus) = [(2%nat, 8%nat); (2%nat, 9%nat)]
  /\ fst (2%nat, 9%nat) <> 1%nat.
Proof.
  intros later bus. split; [reflexivity |].
  apply (unsubscribe_stops_delivery [Subscribe 1%nat; Publish 7%nat] later 1%nat).
  - intros g [Hg | [Hg | [Hg | []]]]; try discriminate. injection Hg as <-. discriminate.
  - cbn. right. now left.
Defined.

End StateBusFacts.

(** ** The control loop *)

Module MainLoopFacts.

Import MainLoop.








(** X25: what the keys do to the controls: opposite keys cancel, an axis with no
    key down keeps the value it had, and with both throttle keys down a
    throttle in range is cut to [1 - 0.5/60] at most. *)
Theorem keyboard_mapping (keyState : list string) (c : ControlInputs) :
  let c' := updateInputsFromKeyboard keyState c in
  elevator c'
  = (if has keyState "ArrowUp"
     then if has keyState "ArrowDown" then 0 else -1
     else if has keyState "ArrowDown" then 1 else elevator c)
  /\ ailerons c'
     = (if has keyState "ArrowRight"
        then if has keyState "ArrowLeft" then 0 else 1
        else if has keyState "ArrowLeft" then -1 else ailerons c)
  /\ rudder c'
     = (if has keyState "e" || has keyState "E"
        then if has keyState "q" || has keyState "Q" then 0 else 1
        else if has keyState "q" || has keyState "Q" then -1 else rudder c)
  /\ (0 <= throttle c <= 1 ->
      throttle c'
      = (if has keyState "x" || has keyState "X"
         then if has keyState "z" || has keyState "Z"
              then Rmin (throttle c) (1 - 0.5 / 60)
              else Rmin 1 (throttle c + 0.5 / 60)
         else if has keyState "z" || has keyState "Z"
              then Rmax 0 (throttle c - 0.5 / 60)
              else throttle c)).
Proof.
  cbv zeta.
  assert (Hm1 : Rmax (-1) (Rmin 1 (-1 + 0)) = -1).
  { replace (-1 + 0) with (-1) by ring. apply (clamp_inside (-1) (-1) 1). lra. }
  assert (H0 : Rmax (-1) (Rmin 1 (-1 + 1)) = 0).
  { replace (-1 + 1) with 0 by ring. apply (clamp_inside 0 (-1) 1). lra. }
  assert (H0' : Rmax (-1) (Rmin 1 (1 + -1)) = 0).
  { replace (1 + -1) with 0 by ring. apply (clamp_inside 0 (-1) 1). lra. }
  assert (H1 : Rmax (-1) (Rmin 1 (0 + 1)) = 1).
  { replace (0 + 1) with 1 by ring. apply (clamp_inside 1 (-1) 1). lra. }
  assert (H1' : Rmax (-1) (Rmin 1 (1 + 0)) = 1).
  { replace (1 + 0) with 1 by ring. apply (clamp_inside 1 (-1) 1). lra. }
  assert (Hm1' : Rmax (-1) (Rmin 1 (0 + -1)) = -1).
  { replace (0 + -1) with (-1) by ring. apply (clamp_inside (-1) (-1) 1). lra. }
  assert (Hail : forall x, elevator (keyboardAilerons keyState x) = elevator x
                           /\ rudder (keyboardAilerons keyState x) = rudder x
                           /\ throttle (keyboardAilerons keyState x) = throttle x).
  { intros x. unfold keyboardAilerons. destruct (_ || _); repeat split. }
  assert (Hele : forall x, ailerons (keyboardElevator keyState x) = ailerons x
                           /\ rudder (keyboardElevator keyState x) = rudder x
                           /\ throttle (keyboardElevator keyState x) = throttle x).
  { intros x. unfold keyboardElevator. destruct (_ || _); repeat split. }
  assert (Hrud : forall x, elevator (keyboardRudder keyState x) = elevator x
                           /\ ailerons (keyboardRudder keyState x) = ailerons x
                           /\ throttle (keyboardRudder keyState x) = throttle x).
  { intros x. unfold keyboardRudder. destruct (_ || _); repeat split. }
  assert (Hup : forall x, elevator (keyboardThrottleUp keyState x) = elevator x
                          /\ ailerons (keyboardThrottleUp keyState x) = ailerons x
                          /\ rudder (keyboardThrottleUp keyState x) = rudder x).
  { intros x. unfold keyboardThrottleUp. destruct (_ || _); repeat split. }
  assert (Hdown : forall x, elevator (keyboardThrottleDown keyState x) = elevator x
                            /\ ailerons (keyboardThrottleDown keyState x) = ailerons x
                            /\ rudder (keyboardThrottleDown keyState x) = rudder x).
  { intros x. unfold keyboardThrottleDown. destruct (_ || _); repeat split. }
  unfold updateInputsFromKeyboard.
  split; [| split; [| split]].
  - rewrite (proj1 (Hdown _)), (proj1 (Hup _)), (proj1 (Hrud _)), (proj1 (Hail _)).
    unfold keyboardElevator.
    destruct (has keyState "ArrowUp"); destruct (has keyState "ArrowDown");
      cbn [orb withElevator elevator]; auto.
  - rewrite (proj1 (proj2 (Hdown _))), (proj1 (proj2 (Hup _))), (proj1 (proj2 (Hrud _))).
    unfold keyboardAilerons.
    destruct (has keyState "ArrowRight"); destruct (has keyState "ArrowLeft");
      cbn [orb withAilerons ailerons]; auto. apply (proj1 (Hele _)).
  - rewrite (proj2 (proj2 (Hdown _))), (proj2 (proj2 (Hup _))).
    unfold keyboardRudder.
    destruct (has keyState "e"); destruct (has keyState "E");
      destruct (has keyState "q"); destruct (has keyState "Q");
      cbn [orb withRudder rudder]; auto;
      rewrite (proj1 (proj2 (Hail _))); apply (proj1 (proj2 (Hele _))).
  - intros Ht.
    assert (Hsame : throttle (keyboardRudder keyState
                                (keyboardAilerons keyState (keyboardElevator keyState c)))
                    = throttle c).
    { rewrite (proj2 (proj2 (Hrud _))), (proj2 (proj2 (Hail _))).
      apply (proj2 (proj2 (Hele _))). }
    revert Hsame.
    generalize (keyboardRudder keyState
                  (keyboardAilerons keyState (keyboardElevator keyState c))) as c3.
    intros c3 Hsame. unfold keyboardThrottleDown, keyboardThrottleUp.
    destruct (has keyState "x" || has keyState "X");
      destruct (has keyState "z" || has keyState "Z");
      cbn [withThrottle throttle]; rewrite Hsame; try reflexivity.
    unfold Rmin.
    destruct (Rle_dec 1 (throttle c + 0.5 / 60));
      destruct (Rle_dec (throttle c) (1 - 0.5 / 60)); try lra;
      unfold Rmax;
      match goal with |- context [Rle_dec ?a ?b] => destruct (Rle_dec a b) end; lra.
Qed.

Lemma keyboard_mapping_witness :
  throttle (updateInputsFromKeyboard ["x"%string; "z"%string] initialInputs)
  = Rmin 0.75 (1 - 0.5 / 60).
Proof.
  apply (proj2 (proj2 (proj2 (keyboard_mapping ["x"%string; "z"%string] initialInputs)))).
  cbn [initialInputs throttle]. lra.
Defined.


(** X26: the tick handler calls [update] only with a finite, positive number of
    seconds, never more than 0.1, which the 0.25 s cap of [update] lets
    through whole. *)
Theorem tick_seconds_capped (dt : JsNumber) :
  match tickSeconds dt with
  | Some seconds =>
      exists x, dt = Finite x /\ 0 < x /\ seconds = Rmin x 0.1
                /\ 0 < seconds <= 0.1 /\ Rmin seconds 0.25 = seconds
  | None =>
      dt = NaN \/ dt = PosInfinity \/ dt = NegInfinity
      \/ exists x, dt = Finite x /\ x <= 0
  end.
Proof.
  unfold tickSeconds.
  destruct dt as [x | | |]; cbn [isFinite negb leZero orb finiteValue]; auto.
  destruct (Rle_dec x 0) as [Hle | Hgt].
  - right. right. right. now exists x.
  - exists x. split; [reflexivity |]. split; [lra |].
    unfold Rmin. destruct (Rgt_dec x 0.1); destruct (Rle_dec x 0.1); try lra;
      (split; [lra |]); (split; [lra |]);
      match goal with |- context [Rle_dec ?a ?b] => destruct (Rle_dec a b) end; lra.
Qed.

End MainLoopFacts.
